(** * ImagePromptTemplate: the generation task poller and the users data-access layer

    A shallow embedding of
    - the task-based generation loop (create task, poll status, get result), and
    - [models/user.ts], the query functions over the [users] table,
    together with the properties of both that the design document states. *)

From Stdlib Require Import ZArith Ascii String.
From stdpp Require Import base tactics option list strings gmap fin_maps.

Local Open Scope string_scope.
Local Open Scope list_scope.

(** Left-to-right application, to write builder chains the way the source does:
    [from "users" |> select "*" |> eq "uuid" uuid]. *)
Notation "x |> f" := (f x) (at level 45, left associativity, only parsing).

(* ===================================================================== *)
(** * Part I. Definitions                                                 *)
(* ===================================================================== *)

(* --------------------------------------------------------------------- *)
(** ** The generation task poller                                         *)
(* --------------------------------------------------------------------- *)

Module Poller.

(** [taskData]: the [data] member of the status endpoint's envelope.
    [progress] and [results] may be missing from the JSON body. *)
Record TaskData := {
  status : string;
  progress : option Z;
  results : option (list string);
}.

(** What an awaited [fetch(...)] followed by [.json()] can do: reject, or
    deliver the [data] member of the parsed body ([None] when the body has
    no [data]). *)
Inductive Fetched (A : Type) : Type :=
| Rejected (reason : string)
| Body (data : option A).
Arguments Rejected {A} reason.
Arguments Body {A} data.

(** The two endpoints the loop talks to.  [create] answers the POST to
    [/api/ai/evolink/generate] with [data.id]; [task url n] answers the
    [n]-th GET (counted from 0) of the status URL. *)
Record Endpoints := {
  create : Fetched (option string);
  task : string -> nat -> Fetched TaskData;
}.

(** Observable steps of one run, oldest first. *)
Inductive Event :=
| Posted                          (* the create request *)
| Slept (ms : Z)                  (* setTimeout(resolve, ms) awaited *)
| Polled (url : string)           (* fetch of the status URL *)
| Logged (progress : option Z).   (* console.log of the progress line *)

Abbreviation Trace := (list Event).

(** How the snippet ends: [return v] ([None] is JS [undefined]) or a
    raised error carrying its message. *)
Inductive Outcome :=
| Returned (v : option string)
| Thrown (message : string).

Definition maxAttempts : nat := 120.
Definition pollInterval : Z := 2000.

(** The template literal [`/api/ai/evolink/task/${taskId}`]. *)
Definition taskUrl (taskId : option string) : string :=
  "/api/ai/evolink/task/" +:+ default "undefined" taskId.

(** [taskData.results[0]]: reading [results] off a body that lacks it
    raises, indexing an empty array gives [undefined]. *)
Definition first_result (td : TaskData) : Outcome :=
  match results td with
  | None => Thrown "TypeError"
  | Some rs => Returned (rs !! 0%nat)
  end.

Section Loop.
Variable net : Endpoints.
Variable url : string.

(** The [for] loop from [attempt] on, with [budget = maxAttempts - attempt]
    iterations left.  Each iteration first waits [pollInterval], then asks
    for the status. *)
Fixpoint poll_from (budget attempt : nat) (tr : Trace) : Outcome * Trace :=
  match budget with
  | O => (Thrown "Task timeout", tr)
  | S budget' =>
      let tr := tr ++ [Slept pollInterval; Polled url] in
      match task net url attempt with
      | Rejected reason => (Thrown reason, tr)
      | Body None => (Thrown "TypeError", tr)
      | Body (Some taskData) =>
          if String.eqb (status taskData) "completed" then
            (first_result taskData, tr)
          else if String.eqb (status taskData) "failed" then
            (Thrown "Generation failed", tr)
          else
            poll_from budget' (S attempt) (tr ++ [Logged (progress taskData)])
      end
  end.

End Loop.

(** The whole snippet: create the task, then poll it. *)
Definition generate (net : Endpoints) : Outcome * Trace :=
  match create net with
  | Rejected reason => (Thrown reason, [Posted])
  | Body None => (Thrown "TypeError", [Posted])
  | Body (Some taskId) =>
      poll_from net (taskUrl taskId) maxAttempts 0 [Posted]
  end.

(** Measurements on a trace. *)
Definition slept (e : Event) : Z :=
  match e with Slept ms => ms | _ => 0%Z end.

Definition waited (tr : Trace) : Z := foldr (fun e acc => (slept e + acc)%Z) 0%Z tr.

Definition is_poll (e : Event) : bool :=
  match e with Polled _ => true | _ => false end.

Definition is_sleep (e : Event) : bool :=
  match e with Slept _ => true | _ => false end.

Definition polls_made (tr : Trace) : nat := length (filter (fun e => is_poll e = true) tr).
Definition intervals (tr : Trace) : nat := length (filter (fun e => is_sleep e = true) tr).

End Poller.

(* --------------------------------------------------------------------- *)
(** ** [types/user.d.ts]                                                  *)
(* --------------------------------------------------------------------- *)

Module Types.

(** [interface User]; a field marked [?] is an [option]. *)
Record User := {
  id : option Z;
  uuid : option string;
  email : string;
  nickname : string;
  avatar_url : string;
  phone : option string;
  credits : option Z;
  created_at : option string;
  updated_at : option string;
  locale : option string;
  signin_type : option string;
  signin_provider : option string;
  signin_openid : option string;
  signin_ip : option string;
  invite_code : option string;
  invited_by : option string;
  is_affiliate : option bool;
}.

End Types.

(** [Partial<User>]: the same fields, every one of them optional. *)
Module Partial.

Record PartialUser := {
  id : option Z;
  uuid : option string;
  email : option string;
  nickname : option string;
  avatar_url : option string;
  phone : option string;
  credits : option Z;
  created_at : option string;
  updated_at : option string;
  locale : option string;
  signin_type : option string;
  signin_provider : option string;
  signin_openid : option string;
  signin_ip : option string;
  invite_code : option string;
  invited_by : option string;
  is_affiliate : option bool;
}.

Definition is_Some_b {A} (o : option A) : bool :=
  match o with Some _ => true | None => false end.

(** A field present in the update replaces the stored one. *)
Definition over {A} (new : option A) (old : A) : A := default old new.
Definition over_opt {A} (new old : option A) : option A :=
  match new with Some v => Some v | None => old end.

Definition merge (u : Types.User) (p : PartialUser) : Types.User := {|
  Types.id := over_opt (id p) (Types.id u);
  Types.uuid := over_opt (uuid p) (Types.uuid u);
  Types.email := over (email p) (Types.email u);
  Types.nickname := over (nickname p) (Types.nickname u);
  Types.avatar_url := over (avatar_url p) (Types.avatar_url u);
  Types.phone := over_opt (phone p) (Types.phone u);
  Types.credits := over_opt (credits p) (Types.credits u);
  Types.created_at := over_opt (created_at p) (Types.created_at u);
  Types.updated_at := over_opt (updated_at p) (Types.updated_at u);
  Types.locale := over_opt (locale p) (Types.locale u);
  Types.signin_type := over_opt (signin_type p) (Types.signin_type u);
  Types.signin_provider := over_opt (signin_provider p) (Types.signin_provider u);
  Types.signin_openid := over_opt (signin_openid p) (Types.signin_openid u);
  Types.signin_ip := over_opt (signin_ip p) (Types.signin_ip u);
  Types.invite_code := over_opt (invite_code p) (Types.invite_code u);
  Types.invited_by := over_opt (invited_by p) (Types.invited_by u);
  Types.is_affiliate := over_opt (is_affiliate p) (Types.is_affiliate u);
|}.

(** Whether the update sets any field at all. *)
Definition has_fields (p : PartialUser) : bool :=
  is_Some_b (id p) || is_Some_b (uuid p) || is_Some_b (email p) || is_Some_b (nickname p)
  || is_Some_b (avatar_url p) || is_Some_b (phone p) || is_Some_b (credits p)
  || is_Some_b (created_at p) || is_Some_b (updated_at p) || is_Some_b (locale p)
  || is_Some_b (signin_type p) || is_Some_b (signin_provider p)
  || is_Some_b (signin_openid p) || is_Some_b (signin_ip p) || is_Some_b (invite_code p)
  || is_Some_b (invited_by p) || is_Some_b (is_affiliate p).

End Partial.

(* --------------------------------------------------------------------- *)
(** ** JS numbers holding whole values                                    *)
(* --------------------------------------------------------------------- *)

(** [page], [limit] and the offsets computed from them are JS numbers,
    that is IEEE 754 doubles.  On whole values the sum, the difference
    and the product of two doubles is the exact result rounded to 53
    significant bits (to the nearest, ties to the even neighbour), or an
    infinity when that is out of range; so whole doubles are modelled by
    the integers they hold, with the rounding written out. *)
Module Js.

Inductive Num :=
| Finite (z : Z)
| PlusInfinity
| MinusInfinity
| NaN.

(** The first power of two no double reaches, [2^1024]. *)
Definition overflow : Z := Z.shiftl 1 1024.

(** Rounding a whole number that is not negative to 53 significant bits. *)
Definition round_pos (z : Z) : Z :=
  if (z <? 2 ^ 53)%Z then z
  else
    let ulp := (2 ^ (Z.log2 z - 52))%Z in
    let q := (z / ulp)%Z in
    let r := (z mod ulp)%Z in
    if (2 * r <? ulp)%Z then (q * ulp)%Z
    else if (ulp <? 2 * r)%Z then ((q + 1) * ulp)%Z
    else if Z.even q then (q * ulp)%Z
    else ((q + 1) * ulp)%Z.

Definition round (z : Z) : Z :=
  if (z <? 0)%Z then (- round_pos (- z))%Z else round_pos z.

(** The double an exact whole result becomes. *)
Definition number (z : Z) : Num :=
  let r := round z in
  if (overflow <=? r)%Z then PlusInfinity
  else if (r <=? - overflow)%Z then MinusInfinity
  else Finite r.

Definition neg (a : Num) : Num :=
  match a with
  | Finite z => Finite (- z)
  | PlusInfinity => MinusInfinity
  | MinusInfinity => PlusInfinity
  | NaN => NaN
  end.

(** [a + b] *)
Definition add (a b : Num) : Num :=
  match a, b with
  | Finite x, Finite y => number (x + y)
  | NaN, _ | _, NaN => NaN
  | PlusInfinity, MinusInfinity | MinusInfinity, PlusInfinity => NaN
  | PlusInfinity, _ | _, PlusInfinity => PlusInfinity
  | MinusInfinity, _ | _, MinusInfinity => MinusInfinity
  end.

(** [a - b] *)
Definition sub (a b : Num) : Num := add a (neg b).

Definition infinity_of_sign (s : Z) : Num :=
  if (s =? 0)%Z then NaN
  else if (0 <? s)%Z then PlusInfinity
  else MinusInfinity.

Definition sign (a : Num) : Z :=
  match a with
  | Finite z => Z.sgn z
  | PlusInfinity => 1
  | MinusInfinity => (-1)
  | NaN => 0
  end.

(** [a * b] *)
Definition mul (a b : Num) : Num :=
  match a, b with
  | Finite x, Finite y => number (x * y)
  | NaN, _ | _, NaN => NaN
  | _, _ => infinity_of_sign (sign a * sign b)
  end.

End Js.

(* --------------------------------------------------------------------- *)
(** ** The store client ([models/db]: the Supabase handle)                *)
(* --------------------------------------------------------------------- *)

(** [models/user.ts] reaches the hosted store only through the client
    handle it imports.  The handle is modelled by the operations the file
    calls on it: a query is built by chaining, and awaiting it yields
    [{ data, error }].  The table lives in a [World] that is threaded
    through every call, with the list of requests sent so far. *)
Module Postgrest.
Import Types.

Record PostgrestError := {
  code : string;
  message : string;
}.

Record Response (T : Type) := {
  data : option T;
  error : option PostgrestError;
}.
Arguments data {T} _.
Arguments error {T} _.

Definition ok {T} (x : option T) : Response T := {| data := x; error := None |}.
Definition failed {T} (e : PostgrestError) : Response T := {| data := None; error := Some e |}.

Inductive Filter :=
| Eq (column value : string)
| Gte (column value : string)
| In (column : string) (values : list string).

Inductive Verb :=
| Read (columns : string)
| Insert (values : list User)
| Update (values : Partial.PartialUser).

Record Query := {
  table : string;
  verb : option Verb;
  returning : bool;            (* [.select()] chained after a write *)
  filters : list Filter;
  ordering : option (string * bool);   (* column, ascending *)
  window : option (Js.Num * Js.Num);   (* [.range(from, to)], both inclusive *)
}.

(** *** The builder chain *)

Definition from (t : string) : Query :=
  {| table := t; verb := None; returning := false; filters := [];
     ordering := None; window := None |}.

Definition with_verb (v : Verb) (q : Query) : Query :=
  {| table := table q; verb := Some v; returning := returning q;
     filters := filters q; ordering := ordering q; window := window q |}.

Definition with_filter (f : Filter) (q : Query) : Query :=
  {| table := table q; verb := verb q; returning := returning q;
     filters := filters q ++ [f]; ordering := ordering q; window := window q |}.

(** [.select(columns)] starts a read; chained after [insert] or [update]
    it asks for the written rows back. *)
Definition select (columns : string) (q : Query) : Query :=
  match verb q with
  | None => with_verb (Read columns) q
  | Some _ =>
      {| table := table q; verb := verb q; returning := true;
         filters := filters q; ordering := ordering q; window := window q |}
  end.

Definition insert (values : list User) (q : Query) : Query := with_verb (Insert values) q.
Definition update (values : Partial.PartialUser) (q : Query) : Query := with_verb (Update values) q.
Definition eq (column value : string) (q : Query) : Query := with_filter (Eq column value) q.
Definition gte (column value : string) (q : Query) : Query := with_filter (Gte column value) q.
Definition in_ (column : string) (values : list string) (q : Query) : Query :=
  with_filter (In column values) q.

Definition order (column : string) (ascending : bool) (q : Query) : Query :=
  {| table := table q; verb := verb q; returning := returning q;
     filters := filters q; ordering := Some (column, ascending); window := window q |}.

Definition range (lo hi : Js.Num) (q : Query) : Query :=
  {| table := table q; verb := verb q; returning := returning q;
     filters := filters q; ordering := ordering q; window := Some (lo, hi) |}.

(** *** What the store does with a request *)

(** The parts of the hosted database that neither the sources nor the
    design document fix, taken as parameters: how it orders column
    values, which writes its constraints reject, which columns it
    generates on insert, the error a single-row read reports when
    several rows qualify, and whether an update that sets no field still
    hands back the rows it matched (or is answered with no rows). *)
Record Backend := {
  value_le : string -> string -> bool;
  violation : list User -> list User -> option PostgrestError;  (* table before, table after *)
  generated : list User -> User -> User;
  ambiguous : PostgrestError;
  applies_empty_update : bool;
}.

(** The error a single-row read reports when no row qualifies; its code
    is the one [models/user.ts] tests for. *)
Definition no_rows : PostgrestError :=
  {| code := "PGRST116"; message := "JSON object requested, multiple (or no) rows returned" |}.

Definition undefined_table : PostgrestError :=
  {| code := "42P01"; message := "relation does not exist" |}.

Definition bad_request : PostgrestError :=
  {| code := "PGRST100"; message := "no operation given" |}.

Definition bad_range : PostgrestError :=
  {| code := "PGRST100"; message := "range bounds are not numbers" |}.

(** A range is usable when both its bounds are finite. *)
Definition window_ok (q : Query) : bool :=
  match window q with
  | None => true
  | Some (Js.Finite _, Js.Finite _) => true
  | Some _ => false
  end.

(** The text columns of [users], read by name; a missing value is SQL NULL. *)
Definition column (name : string) (u : User) : option string :=
  if String.eqb name "uuid" then uuid u
  else if String.eqb name "email" then Some (email u)
  else if String.eqb name "nickname" then Some (nickname u)
  else if String.eqb name "avatar_url" then Some (avatar_url u)
  else if String.eqb name "phone" then phone u
  else if String.eqb name "created_at" then created_at u
  else if String.eqb name "updated_at" then updated_at u
  else if String.eqb name "locale" then locale u
  else if String.eqb name "signin_type" then signin_type u
  else if String.eqb name "signin_provider" then signin_provider u
  else if String.eqb name "signin_openid" then signin_openid u
  else if String.eqb name "signin_ip" then signin_ip u
  else if String.eqb name "invite_code" then invite_code u
  else if String.eqb name "invited_by" then invited_by u
  else None.

(** Insertion sort, for [ORDER BY]. *)
Fixpoint place (le : User -> User -> bool) (u : User) (l : list User) : list User :=
  match l with
  | [] => [u]
  | v :: l' => if le u v then u :: l else v :: place le u l'
  end.

Definition sort_by (le : User -> User -> bool) (l : list User) : list User :=
  foldr (place le) [] l.

(** [.range(lo, hi)]: the rows at positions [lo] to [hi], both included. *)
Definition slice (lo hi : Z) (l : list User) : list User :=
  take (Z.to_nat (hi - lo + 1)) (drop (Z.to_nat lo) l).

(** *** The state and the effects of a call *)

(** The state every call runs in. *)
Record World := {
  users : list User;                       (* the [users] table *)
  outage : option PostgrestError;          (* set while the store cannot be reached *)
  sent : list (Query * bool);              (* requests issued so far; the flag marks [.single()] *)
  console : list (string * PostgrestError) (* [console.error] lines *)
}.

Definition record_request (q : Query) (one : bool) (w : World) : World :=
  {| users := users w; outage := outage w; sent := sent w ++ [(q, one)];
     console := console w |}.

Definition with_users (tbl : list User) (w : World) : World :=
  {| users := tbl; outage := outage w; sent := sent w; console := console w |}.

(** What an [async] function can raise. *)
Inductive Exn :=
| Raised (e : PostgrestError)
| TypeError (what : string).

Inductive Completion (A : Type) : Type :=
| Return (a : A)
| Throw (e : Exn).
Arguments Return {A} a.
Arguments Throw {A} e.

Definition M (A : Type) : Type := World -> Completion A * World.

#[export] Instance M_ret : MRet M := fun A a w => (Return a, w).

#[export] Instance M_bind : MBind M := fun A C f m w =>
  match m w with
  | (Return a, w') => f a w'
  | (Throw e, w') => (Throw e, w')
  end.

Definition throw {A} (e : Exn) : M A := fun w => (Throw e, w).

Definition console_error (line : string) (e : PostgrestError) : M unit := fun w =>
  (Return tt,
   {| users := users w; outage := outage w; sent := sent w;
      console := console w ++ [(line, e)] |}).

Section Store.
Variable B : Backend.

(** A comparison with NULL never holds. *)
Definition holds (f : Filter) (u : User) : bool :=
  match f with
  | Eq c v => match column c u with Some x => String.eqb x v | None => false end
  | Gte c v => match column c u with Some x => value_le B v x | None => false end
  | In c vs => match column c u with Some x => bool_decide (x ∈ vs) | None => false end
  end.

Definition qualifies (q : Query) (u : User) : bool :=
  forallb (fun f => holds f u) (filters q).

(** NULLs sort as larger than every value. *)
Definition null_last_le (a b : option string) : bool :=
  match a, b with
  | Some x, Some y => value_le B x y
  | _, None => true
  | None, Some _ => false
  end.

Definition row_le (col : string) (ascending : bool) (u v : User) : bool :=
  if ascending then null_last_le (column col u) (column col v)
  else null_last_le (column col v) (column col u).

Definition ordered (q : Query) (l : list User) : list User :=
  match ordering q with
  | Some (col, asc) => sort_by (row_le col asc) l
  | None => l
  end.

Definition windowed (q : Query) (l : list User) : list User :=
  match window q with
  | Some (Js.Finite lo, Js.Finite hi) => slice lo hi l
  | _ => l
  end.

(** The rows a read returns. *)
Definition fetch (q : Query) (tbl : list User) : list User :=
  windowed q (ordered q (filter (fun u => qualifies q u = true) tbl)).

(** Modelled from the spec: the hosted relational store behind the client
    handle of [models/db], which is not among the sources.  Running a
    request against the [users] table [tbl] is a filtered read or write:
    it gives an error, or the rows handed back ([None] when a write did
    not ask for them) with the table afterwards.  A write that breaks a
    constraint is refused and leaves the table as it was; a read whose
    range bounds are not finite numbers is refused too. *)
Definition execute (q : Query) (tbl : list User)
  : PostgrestError + (option (list User) * list User) :=
  if negb (String.eqb (table q) "users") then inl undefined_table else
  match verb q with
  | None => inl bad_request
  | Some (Read _) =>
      if window_ok q then inr (Some (fetch q tbl), tbl) else inl bad_range
  | Some (Insert values) =>
      let stored := map (generated B tbl) values in
      let tbl' := tbl ++ stored in
      match violation B tbl tbl' with
      | Some e => inl e
      | None => inr (if returning q then Some stored else None, tbl')
      end
  | Some (Update values) =>
      if negb (Partial.has_fields values) && negb (applies_empty_update B)
      then inr (if returning q then Some [] else None, tbl)
      else
        let tbl' := map (fun u => if qualifies q u then Partial.merge u values else u) tbl in
        let changed := map (fun u => Partial.merge u values)
                           (filter (fun u => qualifies q u = true) tbl) in
        match violation B tbl tbl' with
        | Some e => inl e
        | None => inr (if returning q then Some changed else None, tbl')
        end
  end.

(** *** Awaiting a request *)

(** Modelled from the spec: awaiting a request on the client handle of
    [models/db], which is not among the sources.  [await query] yields
    the rows as an array.  The client does not reject: a failure is
    signalled in [error], with [data] null. *)
Definition await (q : Query) : M (Response (list User)) := fun w =>
  let w := record_request q false w in
  match outage w with
  | Some e => (Return (failed e), w)
  | None =>
      match execute q (users w) with
      | inl e => (Return (failed e), w)
      | inr (out, tbl') => (Return (ok out), with_users tbl' w)
      end
  end.

(** Modelled from the spec: the single-row read of the client handle of
    [models/db], which is not among the sources.  [await query.single()]
    yields exactly one row as an object; no row is the "no rows"
    condition, several rows are an error too, and a write is then rolled
    back. *)
Definition single (q : Query) : M (Response User) := fun w =>
  let w := record_request q true w in
  match outage w with
  | Some e => (Return (failed e), w)
  | None =>
      match execute q (users w) with
      | inl e => (Return (failed e), w)
      | inr (None, tbl') => (Return (ok None), with_users tbl' w)
      | inr (Some [], _) => (Return (failed no_rows), w)
      | inr (Some [u], tbl') => (Return (ok (Some u)), with_users tbl' w)
      | inr (Some (_ :: _ :: _), _) => (Return (failed (ambiguous B)), w)
      end
  end.

End Store.

End Postgrest.

(* --------------------------------------------------------------------- *)
(** ** [models/user.ts]                                                   *)
(* --------------------------------------------------------------------- *)

Module UserModel.
Import Types Postgrest.

(** [s.split(sep)] for a one-character separator. *)
Fixpoint split (sep : ascii) (s : string) : list string :=
  match s with
  | EmptyString => [EmptyString]
  | String c rest =>
      if Ascii.eqb c sep then EmptyString :: split sep rest
      else match split sep rest with
           | piece :: pieces => String c piece :: pieces
           | [] => [String c EmptyString]
           end
  end.

(** [pieces[0]] of a [split]; the array is never empty (see
    [split_nonempty]), so the fallback is not reached. *)
Definition first_piece (pieces : list string) : string := default "undefined" (pieces !! 0%nat).

(** [v || 0] on the result of [Map.get]. *)
Definition or_zero (v : option nat) : nat :=
  match v with
  | Some (S n) => S n
  | _ => 0
  end.

(** The callback of [data.forEach] in [getUserCountByDate]. *)
Definition count_item (dateCountMap : gmap string nat) (item : User)
  : Completion (gmap string nat) :=
  match created_at item with
  | None => Throw (TypeError "item.created_at.split")
  | Some stamp =>
      let date := first_piece (split "T" stamp) in
      Return (<[date := or_zero (dateCountMap !! date) + 1]> dateCountMap)
  end.

Fixpoint forEach (items : list User) (dateCountMap : gmap string nat)
  : Completion (gmap string nat) :=
  match items with
  | [] => Return dateCountMap
  | item :: rest =>
      match count_item dateCountMap item with
      | Return m => forEach rest m
      | Throw e => Throw e
      end
  end.

(** [!uuids || uuids.length === 0] *)
Definition nothing_asked (uuids : option (list string)) : bool :=
  match uuids with
  | None => true
  | Some l => Nat.eqb (length l) 0
  end.

Section Model.
(** The store behind [supabase] and [getSupabaseClient()]. *)
Variable B : Backend.

Definition insertUser (user : User) : M (option User) :=
  r ← single B (from "users" |> insert [user] |> select "*");
  match error r with
  | Some e => console_error "Error inserting user:" e ;; throw (Raised e)
  | None => mret (data r)
  end.

Definition findUserByEmail (email : string) (provider : option string) : M (option User) :=
  let query := from "users" |> select "*" |> eq "email" email in
  let query :=
    match provider with
    | Some (String c p) => query |> eq "signin_provider" (String c p)
    | _ => query                      (* [undefined] and [""] are falsy *)
    end in
  r ← single B query;
  match error r with
  | Some e =>
      if negb (String.eqb (code e) "PGRST116")
      then console_error "Error finding user by email:" e ;; mret None
      else mret (data r)
  | None => mret (data r)
  end.

Definition findUserByUuid (uuid : string) : M (option User) :=
  r ← single B (from "users" |> select "*" |> eq "uuid" uuid);
  match error r with
  | Some e =>
      if negb (String.eqb (code e) "PGRST116")
      then console_error "Error finding user by uuid:" e ;; mret None
      else mret (data r)
  | None => mret (data r)
  end.

Definition updateUser (uuid : string) (updates : Partial.PartialUser) : M (option User) :=
  r ← single B (from "users" |> update updates |> eq "uuid" uuid |> select "*");
  match error r with
  | Some e => console_error "Error updating user:" e ;; mret None
  | None => mret (data r)
  end.

(** [undefined] is [None]. *)
Definition getUsersTotal : M (option nat) :=
  r ← await B (from "users" |> select "id");
  match error r with
  | Some _ => mret None
  | None => mret (Some (match data r with Some l => length l | None => 0 end))
  end.

(** The rows come back whole; only [created_at], the column asked for, is read. *)
Definition getUserCountByDate (startTime : string) : M (option (gmap string nat)) :=
  r ← await B (from "users" |> select "created_at"
                 |> gte "created_at" startTime
                 |> order "created_at" true);
  match error r with
  | Some _ => mret None
  | None =>
      match data r with
      | None => throw (TypeError "data.forEach")
      | Some items =>
          match forEach items ∅ with
          | Return dateCountMap => mret (Some dateCountMap)
          | Throw e => throw e
          end
      end
  end.

(** An omitted argument is [None] and takes its default.  An argument is a
    whole number, held as the double nearest to it; the arithmetic is
    that of doubles. *)
Definition getUsers (page limit : option Z) : M (option (list User)) :=
  let page := Js.number (default 1%Z page) in
  let limit := Js.number (default 50%Z limit) in
  let offset := Js.mul (Js.sub page (Js.Finite 1)) limit in
  r ← await B (from "users" |> select "*"
                 |> order "created_at" false
                 |> range offset (Js.sub (Js.add offset limit) (Js.Finite 1)));
  match error r with
  | Some e => console_error "Error fetching users:" e ;; mret (Some [])
  | None => mret (data r)
  end.

Definition getUsersByUuids (uuids : option (list string)) : M (option (list User)) :=
  if nothing_asked uuids then mret (Some [])
  else
    r ← await B (from "users" |> select "*" |> in_ "uuid" (default [] uuids));
    match error r with
    | Some e => console_error "Error fetching users by uuids:" e ;; mret (Some [])
    | None => mret (data r)
    end.

End Model.

End UserModel.

(* --------------------------------------------------------------------- *)
(** ** Vocabulary of the poller's properties                              *)
(* --------------------------------------------------------------------- *)

Module PollerSpec.
Import Poller.

(** The waits and polls of a trace, in order, without the console lines. *)
Definition timeline (tr : Trace) : Trace :=
  filter (fun e => is_sleep e || is_poll e = true) tr.

(** One iteration that neither returns nor throws. *)
Definition round (url : string) (p : option Z) : Trace :=
  [Slept pollInterval; Polled url; Logged p].

Definition rounds (url : string) (ps : list (option Z)) : Trace :=
  concat (map (round url) ps).

(** A status on which the loop goes round again. *)
Definition keeps_polling (td : TaskData) : Prop :=
  status td <> "completed" /\ status td <> "failed".

(** The scenario of the design document: task ["t1"], three [processing]
    replies, then [completed] with [results = ["url1"]]. *)
Definition processing : TaskData :=
  {| status := "processing"; progress := Some 50%Z; results := None |}.

Definition completed_url1 : TaskData :=
  {| status := "completed"; progress := Some 100%Z; results := Some ["url1"] |}.

Definition t1_net : Endpoints :=
  {| create := Body (Some (Some "t1"));
     task := fun _ n => if Nat.ltb n 3 then Body (Some processing) else Body (Some completed_url1) |}.

(** A task that never leaves [processing]. *)
Definition stuck_net : Endpoints :=
  {| create := Body (Some (Some "t1")); task := fun _ _ => Body (Some processing) |}.

End PollerSpec.

(* --------------------------------------------------------------------- *)
(** ** Vocabulary of the data-access properties                           *)
(* --------------------------------------------------------------------- *)

Module UserSpec.
Import Types Postgrest UserModel.

(** *** Matching rows *)

(** The row's uuid is one of [uuids]. *)
Definition uuid_in (uuids : list string) (u : User) : bool :=
  match uuid u with
  | Some x => bool_decide (x ∈ uuids)
  | None => false
  end.

(** The table once the fields in [updates] are written over the rows
    with uuid [uuid0]. *)
Definition updated_table (uuid0 : string) (updates : Partial.PartialUser) (tbl : list User)
  : list User :=
  map (fun u => if bool_decide (uuid u = Some uuid0) then Partial.merge u updates else u) tbl.

(** [x] is [u] with the fields that [p] carries written over it: every
    field present in [p] has [p]'s value, every other field is as in [u]. *)
Definition overwritten (u : User) (p : Partial.PartialUser) (x : User) : Prop :=
  id x = match Partial.id p with Some v => Some v | None => id u end /\
  uuid x = match Partial.uuid p with Some v => Some v | None => uuid u end /\
  email x = match Partial.email p with Some v => v | None => email u end /\
  nickname x = match Partial.nickname p with Some v => v | None => nickname u end /\
  avatar_url x = match Partial.avatar_url p with Some v => v | None => avatar_url u end /\
  phone x = match Partial.phone p with Some v => Some v | None => phone u end /\
  credits x = match Partial.credits p with Some v => Some v | None => credits u end /\
  created_at x = match Partial.created_at p with Some v => Some v | None => created_at u end /\
  updated_at x = match Partial.updated_at p with Some v => Some v | None => updated_at u end /\
  locale x = match Partial.locale p with Some v => Some v | None => locale u end /\
  signin_type x =
    match Partial.signin_type p with Some v => Some v | None => signin_type u end /\
  signin_provider x =
    match Partial.signin_provider p with Some v => Some v | None => signin_provider u end /\
  signin_openid x =
    match Partial.signin_openid p with Some v => Some v | None => signin_openid u end /\
  signin_ip x = match Partial.signin_ip p with Some v => Some v | None => signin_ip u end /\
  invite_code x =
    match Partial.invite_code p with Some v => Some v | None => invite_code u end /\
  invited_by x =
    match Partial.invited_by p with Some v => Some v | None => invited_by u end /\
  is_affiliate x =
    match Partial.is_affiliate p with Some v => Some v | None => is_affiliate u end.

(** [tbl'] is [tbl] with [p] written over the rows that carry [uuid0],
    each row staying where it was, and nothing else touched. *)
Definition table_overwritten (uuid0 : string) (p : Partial.PartialUser)
    (tbl tbl' : list User) : Prop :=
  length tbl' = length tbl /\
  forall i r, tbl !! i = Some r ->
    (uuid r = Some uuid0 -> exists x, tbl' !! i = Some x /\ overwritten r p x) /\
    (uuid r <> Some uuid0 -> tbl' !! i = Some r).

(** The store hands back the rows an update matched: always when the
    update sets a field, and for an update without fields when the store
    is one that answers those too. *)
Definition takes_effect (B : Backend) (p : Partial.PartialUser) : bool :=
  Partial.has_fields p || applies_empty_update B.

Definition provider_is (p : string) (u : User) : bool :=
  match signin_provider u with
  | Some x => String.eqb x p
  | None => false
  end.

(** A row matches [(email, provider)]: its email is the one given and,
    when a provider is given, so is its [signin_provider]. *)
Definition pair_matches (email0 : string) (provider : option string) (u : User) : bool :=
  String.eqb (email u) email0 &&
  match provider with
  | Some p => provider_is p u
  | None => true
  end.

(** The filter the request of [findUserByEmail] carries: the provider is
    compared only when it is a non-empty string. *)
Definition filter_applied (email0 : string) (provider : option string) (u : User) : bool :=
  String.eqb (email u) email0 &&
  match provider with
  | Some (String c p) => provider_is (String c p) u
  | _ => true
  end.

(** The request [findUserByEmail] sends. *)
Definition email_query (email0 : string) (provider : option string) : Query :=
  let query := from "users" |> select "*" |> eq "email" email0 in
  match provider with
  | Some (String c p) => query |> eq "signin_provider" (String c p)
  | _ => query
  end.

(** *** Dates and counts *)

Definition is_digit (c : ascii) : bool :=
  Nat.leb 48 (nat_of_ascii c) && Nat.leb (nat_of_ascii c) 57.

(** The shape [YYYY-MM-DDT...] of an ISO 8601 timestamp. *)
Definition iso_stamp (s : string) : bool :=
  match s with
  | String y1 (String y2 (String y3 (String y4 (String h1
      (String m1 (String m2 (String h2 (String d1 (String d2 (String t _)))))))))) =>
      is_digit y1 && is_digit y2 && is_digit y3 && is_digit y4 && Ascii.eqb h1 "-"
      && is_digit m1 && is_digit m2 && Ascii.eqb h2 "-"
      && is_digit d1 && is_digit d2 && Ascii.eqb t "T"
  | _ => false
  end.

(** Its calendar-date portion, [YYYY-MM-DD]. *)
Definition date_portion (s : string) : string := substring 0 10 s.

(** *** The UTC reading of the date

    The design document names the grouping key "the UTC calendar-date
    portion of the timestamp".  The definitions below follow those words
    and not the code: the wall clock and the zone designator ([Z],
    [+hh:mm], [-hh:mm], [+hh] or [-hh]) of a timestamp
    [YYYY-MM-DDThh:mm...], and the calendar date in UTC of the instant it
    denotes. *)

Definition digit (c : ascii) : Z := (Z.of_nat (nat_of_ascii c) - 48)%Z.

Definition number2 (a b : ascii) : option Z :=
  if is_digit a && is_digit b then Some (10 * digit a + digit b)%Z else None.

Fixpoint skip (n : nat) (s : string) : string :=
  match n, s with
  | S n', String _ rest => skip n' rest
  | _, _ => s
  end.

(** Minutes since midnight on the clock the timestamp is written in. *)
Definition clock_minutes (s : string) : option Z :=
  match substring 11 5 s with
  | String h1 (String h2 (String c (String m1 (String m2 EmptyString)))) =>
      match number2 h1 h2, number2 m1 m2 with
      | Some h, Some m =>
          if Ascii.eqb c ":" && (h <? 24)%Z && (m <? 60)%Z
          then Some (60 * h + m)%Z else None
      | _, _ => None
      end
  | _ => None
  end.

(** The text from the zone designator on. *)
Fixpoint zone_text (s : string) : string :=
  match s with
  | EmptyString => EmptyString
  | String c rest =>
      if Ascii.eqb c "Z" || Ascii.eqb c "+" || Ascii.eqb c "-" then s else zone_text rest
  end.

(** Minutes the clock of the timestamp is ahead of UTC. *)
Definition zone_minutes (s : string) : option Z :=
  match zone_text (skip 11 s) with
  | String z EmptyString => if Ascii.eqb z "Z" then Some 0%Z else None
  | String sign (String h1 (String h2 rest)) =>
      let minutes :=
        match rest with
        | EmptyString => Some 0%Z
        | String c (String m1 (String m2 EmptyString)) =>
            if Ascii.eqb c ":" then number2 m1 m2 else None
        | _ => None
        end in
      match number2 h1 h2, minutes with
      | Some h, Some m =>
          if (h <? 24)%Z && (m <? 60)%Z then
            if Ascii.eqb sign "+" then Some (60 * h + m)%Z
            else if Ascii.eqb sign "-" then Some (- (60 * h + m))%Z
            else None
          else None
      | _, _ => None
      end
  | _ => None
  end.

(** Year, month and day as written. *)
Definition civil (s : string) : option (Z * Z * Z) :=
  match s with
  | String y1 (String y2 (String y3 (String y4 (String _
      (String m1 (String m2 (String _ (String d1 (String d2 _))))))))) =>
      Some ((1000 * digit y1 + 100 * digit y2 + 10 * digit y3 + digit y4)%Z,
            (10 * digit m1 + digit m2)%Z, (10 * digit d1 + digit d2)%Z)
  | _ => None
  end.

Definition leap (y : Z) : bool :=
  (y mod 4 =? 0)%Z && (negb (y mod 100 =? 0)%Z || (y mod 400 =? 0)%Z).

Definition days_in (y m : Z) : Z :=
  if (m =? 2)%Z then (if leap y then 29%Z else 28%Z)
  else if (m =? 4)%Z || (m =? 6)%Z || (m =? 9)%Z || (m =? 11)%Z then 30%Z
  else 31%Z.

Definition next_day (day : Z * Z * Z) : Z * Z * Z :=
  let '(y, m, d) := day in
  if (d <? days_in y m)%Z then (y, m, (d + 1)%Z)
  else if (m <? 12)%Z then (y, (m + 1)%Z, 1%Z)
  else ((y + 1)%Z, 1%Z, 1%Z).

Definition prev_day (day : Z * Z * Z) : Z * Z * Z :=
  let '(y, m, d) := day in
  if (1 <? d)%Z then (y, m, (d - 1)%Z)
  else if (1 <? m)%Z then (y, (m - 1)%Z, days_in y (m - 1))
  else ((y - 1)%Z, 12%Z, 31%Z).

Definition digit_char (d : Z) : ascii := ascii_of_nat (Z.to_nat (48 + d mod 10)).

Definition two (n : Z) : string :=
  String (digit_char (n / 10)) (String (digit_char n) EmptyString).

Definition four (n : Z) : string :=
  String (digit_char (n / 1000)) (String (digit_char (n / 100)) (two n)).

(** [YYYY-MM-DD] for a date of the years 0000 to 9999. *)
Definition written (day : Z * Z * Z) : option string :=
  let '(y, m, d) := day in
  if (0 <=? y)%Z && (y <=? 9999)%Z
  then Some (four y +:+ "-" +:+ two m +:+ "-" +:+ two d)
  else None.

(** The UTC calendar date of a timestamp: the date as written when the
    instant falls on the same day in UTC, the day before or after
    otherwise. *)
Definition utc_date (s : string) : option string :=
  if iso_stamp s then
    match civil s, clock_minutes s, zone_minutes s with
    | Some day, Some t, Some z =>
        let u := (t - z)%Z in
        if (u <? 0)%Z then written (prev_day day)
        else if (1440 <=? u)%Z then written (next_day day)
        else Some (date_portion s)
    | _, _, _ => None
    end
  else None.

(** A timestamp written in UTC: zone [Z] or an offset of zero. *)
Definition in_utc (s : string) : bool :=
  iso_stamp s &&
  match clock_minutes s, zone_minutes s with
  | Some _, Some 0%Z => true
  | _, _ => false
  end.

(** The rows among [items] whose instant falls on the UTC date [d]. *)
Definition on_utc_date (d : string) (items : list User) : list User :=
  filter (fun u => created_at u ≫= utc_date = Some d) items.

(** The key [count_item] files a row under. *)
Definition date_key (u : User) : option string :=
  (fun stamp => first_piece (split "T" stamp)) <$> created_at u.

Definition occurrences (d : string) (items : list User) : nat :=
  length (filter (fun u => date_key u = Some d) items).

(** The sum of the counts held in a map. *)
Definition total (m : gmap string nat) : nat := map_fold (fun _ c acc => c + acc) 0 m.

(** The rows of the table created at or after [startTime]. *)
Definition created_since (B : Backend) (startTime : string) (tbl : list User) : list User :=
  filter (fun u => holds B (Gte "created_at" startTime) u = true) tbl.

(** The request [getUserCountByDate] sends. *)
Definition since_query (startTime : string) : Query :=
  from "users" |> select "created_at" |> gte "created_at" startTime
    |> order "created_at" true.

(** The count stored for a date on which [n] rows fall. *)
Definition count_of (n : nat) : option nat :=
  match n with
  | 0 => None
  | S _ => Some n
  end.

(** *** A small store to run the functions on *)

Definition row (i : Z) (u e p c : string) : User :=
  {| id := Some i; uuid := Some u; email := e; nickname := "nick"; avatar_url := "avatar";
     phone := None; credits := None; created_at := Some c; updated_at := None;
     locale := None; signin_type := None; signin_provider := Some p;
     signin_openid := None; signin_ip := None; invite_code := None;
     invited_by := None; is_affiliate := None |}.

Definition duplicate_key : PostgrestError :=
  {| code := "23505"; message := "duplicate key value violates unique constraint" |}.

Definition unreachable : PostgrestError :=
  {| code := ""; message := "TypeError: fetch failed" |}.

(** A database that keeps [uuid] unique, hands out ids in sequence,
    compares values as text, and reports several rows under the same code
    as none. *)
Definition demo : Backend :=
  {| value_le := String.leb;
     violation := fun _ after =>
       if bool_decide (NoDup (omap uuid after)) then None else Some duplicate_key;
     generated := fun tbl u =>
       {| id := Some (Z.of_nat (S (length tbl))); uuid := uuid u; email := email u;
          nickname := nickname u; avatar_url := avatar_url u; phone := phone u;
          credits := credits u; created_at := created_at u; updated_at := updated_at u;
          locale := locale u; signin_type := signin_type u;
          signin_provider := signin_provider u; signin_openid := signin_openid u;
          signin_ip := signin_ip u; invite_code := invite_code u;
          invited_by := invited_by u; is_affiliate := is_affiliate u |};
     ambiguous := no_rows;
     applies_empty_update := false |}.

(** A database without constraints that reports several rows under a
    code of its own. *)
Definition several_rows : PostgrestError :=
  {| code := "PGRST505"; message := "more than one row returned" |}.

Definition strict : Backend :=
  {| value_le := String.leb; violation := fun _ _ => None;
     generated := fun _ u => u; ambiguous := several_rows;
     applies_empty_update := true |}.

Definition alice : User := row 1 "u1" "a@x.io" "google" "2024-01-01T03:00:00Z".
Definition bob : User := row 2 "u2" "b@x.io" "google" "2024-01-01T23:00:00Z".

(** bob once his nickname is "bobby". *)
Definition bobby : User :=
  {| id := Some 2%Z; uuid := Some "u2"; email := "b@x.io"; nickname := "bobby";
     avatar_url := "avatar"; phone := None; credits := None;
     created_at := Some "2024-01-01T23:00:00Z"; updated_at := None; locale := None;
     signin_type := None; signin_provider := Some "google"; signin_openid := None;
     signin_ip := None; invite_code := None; invited_by := None; is_affiliate := None |}.

(** An account created half an hour before midnight, five hours west of
    Greenwich. *)
Definition late : User := row 4 "u4" "l@x.io" "google" "2024-01-01T23:30:00-05:00".

(** Not stored yet. *)
Definition carol : User := row 0 "u3" "c@x.io" "google" "2024-01-02T08:00:00Z".

(** A second row under bob's uuid and email. *)
Definition bob_again : User := row 3 "u2" "b@x.io" "google" "2024-01-03T09:00:00Z".

(** Two accounts with one email, one of them stored with an empty provider. *)
Definition anna_plain : User := row 1 "u1" "a@x.io" "" "2024-01-01T03:00:00Z".
Definition anna_google : User := row 2 "u2" "a@x.io" "google" "2024-01-01T23:00:00Z".

(** A reachable store holding [tbl], and the same store out of reach. *)
Definition up (tbl : list User) : World :=
  {| users := tbl; outage := None; sent := []; console := [] |}.

Definition down (tbl : list User) : World :=
  {| users := tbl; outage := Some unreachable; sent := []; console := [] |}.

(** An update that touches the nickname only. *)
Definition rename_to (n : string) : Partial.PartialUser :=
  {| Partial.id := None; Partial.uuid := None; Partial.email := None;
     Partial.nickname := Some n; Partial.avatar_url := None; Partial.phone := None;
     Partial.credits := None; Partial.created_at := None; Partial.updated_at := None;
     Partial.locale := None; Partial.signin_type := None; Partial.signin_provider := None;
     Partial.signin_openid := None; Partial.signin_ip := None; Partial.invite_code := None;
     Partial.invited_by := None; Partial.is_affiliate := None |}.

End UserSpec.

(* --------------------------------------------------------------------- *)
(** ** Further vocabulary: sample endpoints                               *)
(* --------------------------------------------------------------------- *)

Module PollerSamples.
Import Poller PollerSpec.

Definition failed_task : TaskData :=
  {| status := "failed"; progress := None; results := None |}.

(** A reply whose status is spelled in capitals. *)
Definition shouting : TaskData :=
  {| status := "COMPLETED"; progress := Some 100%Z; results := Some ["url1"] |}.

Definition completed_empty : TaskData :=
  {| status := "completed"; progress := Some 100%Z; results := Some [] |}.

Definition completed_bare : TaskData :=
  {| status := "completed"; progress := None; results := None |}.

(** Two [processing] replies, then [last] for good. *)
Definition after_two (last : Fetched TaskData) : Endpoints :=
  {| create := Body (Some (Some "t1"));
     task := fun _ n => if Nat.ltb n 2 then Body (Some processing) else last |}.

Definition shouting_net : Endpoints :=
  {| create := Body (Some (Some "t1")); task := fun _ _ => Body (Some shouting) |}.

(** A create reply [{data: {}}], without an [id]; the status endpoint
    knows the task ["undefined"] and no other. *)
Definition no_id_net : Endpoints :=
  {| create := Body (Some None);
     task := fun url _ =>
       if String.eqb url "/api/ai/evolink/task/undefined"
       then Body (Some completed_url1) else Rejected "Not Found" |}.

End PollerSamples.

(* --------------------------------------------------------------------- *)
(** ** Further vocabulary for the data-access layer                       *)
(* --------------------------------------------------------------------- *)

Module UserVocabulary.
Import Types Postgrest UserModel UserSpec.

(** The text of [s] in front of the first [sep]; all of [s] when it has none. *)
Fixpoint before (sep : ascii) (s : string) : string :=
  match s with
  | EmptyString => EmptyString
  | String c rest => if Ascii.eqb c sep then EmptyString else String c (before sep rest)
  end.

Definition is_read (request : Query * bool) : Prop :=
  exists columns, verb (fst request) = Some (Read columns).

(** From [w] to [w'] the table and the reachability of the store are the
    same, and at most one request was sent, a read. *)
Definition only_read (w w' : World) : Prop :=
  users w' = users w /\
  outage w' = outage w /\
  exists extra, sent w' = sent w ++ extra /\ length extra <= 1 /\ Forall is_read extra.

(** The console after a failed single-row lookup: the error is logged
    unless its code is the one taken for "no rows". *)
Definition logged (w : World) (line : string) (e : PostgrestError)
  : list (string * PostgrestError) :=
  if String.eqb (code e) "PGRST116" then console w else console w ++ [(line, e)].

(** An update that moves a row to another uuid. *)
Definition reassign_uuid (u : string) : Partial.PartialUser :=
  {| Partial.id := None; Partial.uuid := Some u; Partial.email := None;
     Partial.nickname := None; Partial.avatar_url := None; Partial.phone := None;
     Partial.credits := None; Partial.created_at := None; Partial.updated_at := None;
     Partial.locale := None; Partial.signin_type := None; Partial.signin_provider := None;
     Partial.signin_openid := None; Partial.signin_ip := None; Partial.invite_code := None;
     Partial.invited_by := None; Partial.is_affiliate := None |}.

(** Rows whose [created_at] is not an ISO timestamp. *)
Definition dated (i : Z) (u c : string) : User := row i u "d@x.io" "google" c.

(** An outage reported under the code of "no rows". *)
Definition odd_outage : PostgrestError :=
  {| code := "PGRST116"; message := "gateway" |}.

End UserVocabulary.

(* --------------------------------------------------------------------- *)
(** ** The generate route and the client call that handles its errors     *)
(* --------------------------------------------------------------------- *)

Module Generate.

(** A JSON body as the route writes it and the client reads it; a member
    that is not there reads as [undefined]. *)
Record Body (A : Type) := {
  error : option string;
  code : option Z;
  message : option string;
  data : option A;
}.
Arguments error {A} _.
Arguments code {A} _.
Arguments message {A} _.
Arguments data {A} _.

(** [NextResponse.json(body, { status })]; the status is 200 when none is given. *)
Record HttpResponse (A : Type) := {
  status : Z;
  body : Body A;
}.
Arguments status {A} _.
Arguments body {A} _.

Definition json {A} (b : Body A) (s : option Z) : HttpResponse A :=
  {| status := default 200%Z s; body := b |}.

(** *** [app/api/ai/evolink/generate/route.ts] *)

(** A JavaScript value as far as a condition looks at it: [Number] holds
    a whole number, [Object] stands for any object. *)
Inductive JsValue :=
| Undefined
| Null
| Boolean (b : bool)
| Number (n : Z)
| NotANumber
| Text (s : string)
| Object.

(** The values a condition takes for true: all but [undefined], [null],
    [false], [0], [NaN] and the empty text. *)
Definition truthy (v : JsValue) : bool :=
  match v with
  | Undefined | Null | NotANumber => false
  | Boolean b => b
  | Number n => negb (n =? 0)%Z
  | Text s => negb (String.eqb s "")
  | Object => true
  end.

(** The session [auth()] resolves to; [None] is [null]. *)
Record Session := {
  user : JsValue;
}.

(** [session?.user]. *)
Definition session_user (session : option Session) : JsValue :=
  match session with
  | Some s => user s
  | None => Undefined
  end.

(** The parsed request body: [{ prompt, size, quality }]. *)
Record GenerateRequest := {
  prompt : option string;
  size : option string;
  quality : option string;
}.

(** What is posted to the provider. *)
Record ProviderCall := {
  path : string;
  model : string;
  call_prompt : option string;
  call_size : option string;
  call_quality : option string;
}.

(** How the handler ends: with a response, or by raising. *)
Inductive Handled (A : Type) : Type :=
| Responded (r : HttpResponse A)
| Raised (what : string).
Arguments Responded {A} r.
Arguments Raised {A} what.

(** [POST(request)].  [session] is what [auth()] gives, [parsed] what
    [request.json()] gives ([None] when it rejects), and [provider] what
    the provider answers to a call ([None] when the call rejects).  The
    second component lists the calls made to the provider. *)
Definition POST {A} (session : option Session) (parsed : option GenerateRequest)
    (provider : ProviderCall -> option A) : Handled A * list ProviderCall :=
  if negb (truthy (session_user session)) then
    (Responded (json {| error := Some "Unauthorized"; code := None; message := None;
                        data := None |} (Some 401%Z)), [])
  else
      match parsed with
      | None => (Raised "request.json", [])
      | Some req =>
          let call := {| path := "/v1/images/generations"; model := "nano-banana-2-lite";
                         call_prompt := prompt req; call_size := size req;
                         call_quality := quality req |} in
          match provider call with
          | None => (Raised "evolinkAxios.post", [call])
          | Some answer =>
              (Responded (json {| error := None; code := Some 1000%Z;
                                  message := Some "success"; data := Some answer |} None),
               [call])
          end
      end.

(** *** The client call ("API Error Handling") *)

(** A caught error, as far as the handler looks at it: its [message]. *)
Record JsError := {
  error_message : option string;
}.

(** What [fetch] and [response.json()] come to: an error raised on the
    way, or the parsed body. *)
Inductive Reply (A : Type) : Type :=
| Raises (e : JsError)
| Parsed (result : Body A).
Arguments Raises {A} e.
Arguments Parsed {A} result.

(** What the user and the console get to see. *)
Record Ui := {
  console : list JsError;
  toasts : list string;
}.

(** [s || fallback] on a text that may be missing. *)
Definition or_else (s : option string) (fallback : string) : string :=
  match s with
  | Some (String c rest) => String c rest
  | _ => fallback
  end.

(** The [try] block: the value returned, or the error raised. *)
Definition attempt {A} (reply : Reply A) : JsError + option A :=
  match reply with
  | Raises e => inl e
  | Parsed result =>
      if bool_decide (code result = Some 1000%Z)
      then inr (data result)
      else inl {| error_message := Some (or_else (message result) "Generation failed") |}
  end.

(** The whole statement: the [catch] block logs, shows a toast and lets
    the function run to its end, which yields [undefined]. *)
Definition generateOrToast {A} (reply : Reply A) (ui : Ui) : option A * Ui :=
  match attempt reply with
  | inr value => (value, ui)
  | inl e =>
      (None,
       {| console := console ui ++ [e];
          toasts := toasts ui ++ [or_else (error_message e) "An error occurred"] |})
  end.

(** The client call against the route: [fetch] resolves with whatever
    response the route sends, whatever its status.  What reaches the
    client when the handler raises is up to the framework and is left
    out ([None]). *)
Definition through_route {A} (session : option Session) (parsed : option GenerateRequest)
    (provider : ProviderCall -> option A) (ui : Ui) : option (option A * Ui) :=
  match fst (POST session parsed provider) with
  | Responded r => Some (generateOrToast (Parsed (body r)) ui)
  | Raised _ => None
  end.

Definition quiet : Ui := {| console := []; toasts := [] |}.

End Generate.

(* ===================================================================== *)
(** * Part II. Properties                                                 *)
(* ===================================================================== *)

(* --------------------------------------------------------------------- *)
(** ** The poller                                                         *)
(* --------------------------------------------------------------------- *)

Module PollerProofs.
Import Poller PollerSpec.

Lemma waited_app (a b : Trace) : waited (a ++ b) = (waited a + waited b)%Z.
Proof.
  unfold waited. induction a as [|e a IH]; simpl; [reflexivity|].
  rewrite IH. lia.
Qed.

Lemma timeline_app (a b : Trace) : timeline (a ++ b) = timeline a ++ timeline b.
Proof. unfold timeline. apply filter_app. Qed.

Lemma polls_made_app (a b : Trace) : polls_made (a ++ b) = polls_made a + polls_made b.
Proof. unfold polls_made. rewrite filter_app. apply length_app. Qed.

Lemma intervals_app (a b : Trace) : intervals (a ++ b) = intervals a + intervals b.
Proof. unfold intervals. rewrite filter_app. apply length_app. Qed.

Lemma rounds_cons url p ps : rounds url (p :: ps) = round url p ++ rounds url ps.
Proof. reflexivity. Qed.

Lemma waited_rounds url ps : waited (rounds url ps) = (Z.of_nat (length ps) * pollInterval)%Z.
Proof.
  induction ps as [|p ps IH]; [reflexivity|].
  rewrite rounds_cons, waited_app, IH. simpl length.
  unfold round, waited, pollInterval. simpl. lia.
Qed.

Lemma timeline_rounds url ps :
  timeline (rounds url ps) = concat (replicate (length ps) [Slept pollInterval; Polled url]).
Proof.
  induction ps as [|p ps IH]; [reflexivity|].
  rewrite rounds_cons, timeline_app, IH. reflexivity.
Qed.

Lemma polls_made_rounds url ps : polls_made (rounds url ps) = length ps.
Proof.
  induction ps as [|p ps IH]; [reflexivity|].
  rewrite rounds_cons, polls_made_app, IH. reflexivity.
Qed.

Lemma intervals_rounds url ps : intervals (rounds url ps) = length ps.
Proof.
  induction ps as [|p ps IH]; [reflexivity|].
  rewrite rounds_cons, intervals_app, IH. reflexivity.
Qed.

Lemma eqb_of_neq (s t : string) : s <> t -> String.eqb s t = false.
Proof. intros H. now apply String.eqb_neq. Qed.

(** While the status stays non-terminal the loop only moves on: [n] such
    replies use up [n] iterations and append [n] rounds to the trace. *)
Lemma poll_from_idle (net : Endpoints) (url : string) (n : nat) :
  forall budget attempt tr,
    (forall i, i < n ->
       exists td, task net url (attempt + i) = Body (Some td) /\ keeps_polling td) ->
    exists ps,
      length ps = n /\
      poll_from net url (n + budget) attempt tr =
      poll_from net url budget (attempt + n) (tr ++ rounds url ps).
Proof.
  induction n as [|n IH]; intros budget attempt tr Hidle.
  - exists []. split; [reflexivity|].
    simpl. now rewrite Nat.add_0_r, app_nil_r.
  - destruct (Hidle 0) as (td & Htd & Hc & Hf); [lia|].
    rewrite Nat.add_0_r in Htd.
    destruct (IH budget (S attempt)
                (tr ++ [Slept pollInterval; Polled url] ++ [Logged (progress td)]))
      as (ps & Hlen & Hrun).
    { intros i Hi. destruct (Hidle (S i)) as (td' & Htd' & Hk); [lia|].
      exists td'. split; [|exact Hk].
      now replace (S attempt + i) with (attempt + S i) by lia. }
    exists (progress td :: ps). split; [simpl; now rewrite Hlen|].
    change (S n + budget) with (S (n + budget)).
    cbn [poll_from]. rewrite Htd.
    rewrite (eqb_of_neq _ _ Hc), (eqb_of_neq _ _ Hf).
    rewrite <- (app_assoc tr). rewrite Hrun.
    rewrite rounds_cons. unfold round.
    replace (S attempt + n) with (attempt + S n) by lia.
    f_equal. rewrite <- !app_assoc. reflexivity.
Qed.

Lemma beats_snoc (x : Trace) (n : nat) :
  concat (replicate n x) ++ x = concat (replicate (S n) x).
Proof.
  induction n as [|n IH]; simpl.
  - now rewrite app_nil_r.
  - rewrite <- app_assoc. now rewrite IH.
Qed.

(** The run of the whole snippet once [k] replies have kept the loop going. *)
Lemma generate_after_idle (net : Endpoints) (taskId : option string) (k : nat) :
  create net = Body (Some taskId) ->
  k < maxAttempts ->
  (forall i, i < k ->
     exists td, task net (taskUrl taskId) i = Body (Some td) /\ keeps_polling td) ->
  exists ps,
    length ps = k /\
    generate net =
    poll_from net (taskUrl taskId) (maxAttempts - k) k ([Posted] ++ rounds (taskUrl taskId) ps).
Proof.
  intros Hcreate Hk Hidle.
  destruct (poll_from_idle net (taskUrl taskId) k (maxAttempts - k) 0 [Posted])
    as (ps & Hlen & Hrun).
  { intros i Hi. simpl. now apply Hidle. }
  exists ps. split; [exact Hlen|].
  unfold generate. rewrite Hcreate.
  replace (k + (maxAttempts - k)) with maxAttempts in Hrun by lia.
  exact Hrun.
Qed.

(** The loop on concrete replies. *)
Example run_t1 :
  generate t1_net =
  (Returned (Some "url1"),
   [Posted;
    Slept 2000; Polled "/api/ai/evolink/task/t1"; Logged (Some 50%Z);
    Slept 2000; Polled "/api/ai/evolink/task/t1"; Logged (Some 50%Z);
    Slept 2000; Polled "/api/ai/evolink/task/t1"; Logged (Some 50%Z);
    Slept 2000; Polled "/api/ai/evolink/task/t1"]).
Proof. reflexivity. Qed.

Example run_failed :
  generate {| create := Body (Some (Some "t2"));
              task := fun _ _ => Body (Some {| status := "failed"; progress := None;
                                               results := None |}) |} =
  (Thrown "Generation failed", [Posted; Slept 2000; Polled "/api/ai/evolink/task/t2"]).
Proof. reflexivity. Qed.

Example run_completed_without_results :
  fst (generate {| create := Body (Some (Some "t3"));
                   task := fun _ _ => Body (Some {| status := "completed"; progress := None;
                                                    results := Some [] |}) |}) =
  Returned None.
Proof. reflexivity. Qed.

Example run_stuck : fst (generate stuck_net) = Thrown "Task timeout".
Proof. vm_compute. reflexivity. Qed.

(** C1. If the create request yields a task id, the first [k] status polls
    ([k < 120]) answer [processing] and poll [k+1] answers [completed] with
    a non-empty [results], the poller returns the first element of
    [results]; by then it has waited exactly [k+1] intervals of 2000 ms,
    one in front of each poll. *)
Theorem poller_returns_first_result_after_k_idle_polls
    (net : Endpoints) (taskId : string) (k : nat)
    (last : TaskData) (artifact : string) (others : list string) :
  create net = Body (Some (Some taskId)) ->
  k < 120 ->
  (forall i, i < k ->
     exists td, task net (taskUrl (Some taskId)) i = Body (Some td) /\
                status td = "processing") ->
  task net (taskUrl (Some taskId)) k = Body (Some last) ->
  status last = "completed" ->
  results last = Some (artifact :: others) ->
  fst (generate net) = Returned (Some artifact) /\
  timeline (snd (generate net)) =
    concat (replicate (S k) [Slept 2000; Polled (taskUrl (Some taskId))]) /\
  intervals (snd (generate net)) = S k /\
  polls_made (snd (generate net)) = S k /\
  waited (snd (generate net)) = (Z.of_nat (S k) * 2000)%Z.
Proof.
  intros Hcreate Hk Hidle Hlast Hdone Hres.
  destruct (generate_after_idle net (Some taskId) k Hcreate Hk) as (ps & Hlen & Hrun).
  { intros i Hi. destruct (Hidle i Hi) as (td & Htd & Hst).
    exists td. split; [exact Htd|]. unfold keeps_polling. rewrite Hst. split; discriminate. }
  rewrite Hrun.
  destruct (maxAttempts - k) as [|budget] eqn:Hbudget; [unfold maxAttempts in *; lia|].
  cbn [poll_from]. rewrite Hlast, Hdone. simpl String.eqb. cbv iota.
  unfold first_result. rewrite Hres. cbn [fst snd lookup list_lookup].
  split; [reflexivity|].
  rewrite !timeline_app, !intervals_app, !polls_made_app, !waited_app.
  rewrite timeline_rounds, intervals_rounds, polls_made_rounds, waited_rounds, Hlen.
  repeat split.
  - change (timeline [Posted]) with (@nil Event). simpl app.
    apply (beats_snoc [Slept pollInterval; Polled (taskUrl (Some taskId))] k).
  - change (intervals [Posted]) with 0.
    change (intervals [Slept pollInterval; Polled (taskUrl (Some taskId))]) with 1. lia.
  - change (polls_made [Posted]) with 0.
    change (polls_made [Slept pollInterval; Polled (taskUrl (Some taskId))]) with 1. lia.
  - unfold pollInterval, waited. simpl. lia.
Qed.

Lemma poller_returns_first_result_witness :
  fst (generate t1_net) = Returned (Some "url1") /\
  timeline (snd (generate t1_net)) =
    concat (replicate 4 [Slept 2000; Polled (taskUrl (Some "t1"))]) /\
  intervals (snd (generate t1_net)) = 4 /\
  polls_made (snd (generate t1_net)) = 4 /\
  waited (snd (generate t1_net)) = 8000%Z.
Proof.
  apply (poller_returns_first_result_after_k_idle_polls
           t1_net "t1" 3 completed_url1 "url1" []).
  - reflexivity.
  - lia.
  - intros i Hi. exists processing. split; [|reflexivity].
    simpl. destruct (Nat.ltb_spec i 3); [reflexivity | lia].
  - reflexivity.
  - reflexivity.
  - reflexivity.
Defined.

(** A [Returned] outcome always comes from inside an iteration: from a
    reply, within the budget, whose status is [completed]. *)
Lemma returned_inside_budget (net : Endpoints) (url : string) :
  forall budget attempt tr v tr',
    poll_from net url budget attempt tr = (Returned v, tr') ->
    exists i td, attempt <= i < attempt + budget /\
                 task net url i = Body (Some td) /\ status td = "completed".
Proof.
  induction budget as [|budget IH]; intros attempt tr v tr' Hrun.
  - discriminate Hrun.
  - cbn [poll_from] in Hrun.
    destruct (task net url attempt) as [reason|[td|]] eqn:Hreply; try discriminate Hrun.
    destruct (String.eqb (status td) "completed") eqn:Hc.
    + exists attempt, td. apply String.eqb_eq in Hc. repeat split; [lia | lia | exact Hreply | exact Hc].
    + destruct (String.eqb (status td) "failed") eqn:Hf; [discriminate Hrun|].
      destruct (IH _ _ _ _ Hrun) as (i & td' & Hi & Htd' & Hst).
      exists i, td'. repeat split; [lia | lia | exact Htd' | exact Hst].
Qed.

(** C2. If every one of the 120 status polls answers [pending] or
    [processing], the loop runs exactly 120 iterations (120 waits of
    2000 ms, 120 polls), the poller raises the timeout error and yields no
    artifact; and in no run at all is a result returned once the budget
    is used up: a returned result stems from a [completed] reply to one
    of the 120 polls. *)
Theorem poller_times_out_after_120_idle_polls (net : Endpoints) (taskId : option string) :
  create net = Body (Some taskId) ->
  (forall i, i < 120 ->
     exists td, task net (taskUrl taskId) i = Body (Some td) /\
                (status td = "pending" \/ status td = "processing")) ->
  fst (generate net) = Thrown "Task timeout" /\
  polls_made (snd (generate net)) = 120 /\
  intervals (snd (generate net)) = 120 /\
  waited (snd (generate net)) = 240000%Z /\
  (forall v, fst (generate net) <> Returned v) /\
  (forall (net' : Endpoints) (url : string) (tr tr' : Trace) (v : option string),
     poll_from net' url maxAttempts 0 tr = (Returned v, tr') ->
     exists i td, i < 120 /\ task net' url i = Body (Some td) /\ status td = "completed").
Proof.
  intros Hcreate Hidle.
  destruct (poll_from_idle net (taskUrl taskId) maxAttempts 0 0 [Posted])
    as (ps & Hlen & Hrun).
  { intros i Hi. destruct (Hidle i Hi) as (td & Htd & Hst).
    exists td. split; [exact Htd|]. unfold keeps_polling.
    destruct Hst as [-> | ->]; split; discriminate. }
  assert (Hgen : generate net = (Thrown "Task timeout", [Posted] ++ rounds (taskUrl taskId) ps)).
  { unfold generate. rewrite Hcreate.
    rewrite Nat.add_0_r in Hrun. rewrite Hrun. reflexivity. }
  rewrite Hgen. cbn [fst snd].
  rewrite polls_made_app, intervals_app, waited_app.
  rewrite polls_made_rounds, intervals_rounds, waited_rounds, Hlen.
  repeat split; try reflexivity.
  - intros v. discriminate.
  - intros net' url tr tr' v Hrun'.
    destruct (returned_inside_budget _ _ _ _ _ _ _ Hrun') as (i & td & Hi & Htd & Hst).
    exists i, td. unfold maxAttempts in Hi. repeat split; [lia | exact Htd | exact Hst].
Qed.

Lemma poller_times_out_witness :
  fst (generate stuck_net) = Thrown "Task timeout" /\
  polls_made (snd (generate stuck_net)) = 120 /\
  intervals (snd (generate stuck_net)) = 120 /\
  waited (snd (generate stuck_net)) = 240000%Z /\
  (forall v, fst (generate stuck_net) <> Returned v) /\
  (forall (net' : Endpoints) (url : string) (tr tr' : Trace) (v : option string),
     poll_from net' url maxAttempts 0 tr = (Returned v, tr') ->
     exists i td, i < 120 /\ task net' url i = Body (Some td) /\ status td = "completed").
Proof.
  apply (poller_times_out_after_120_idle_polls stuck_net (Some "t1")).
  - reflexivity.
  - intros i _. exists processing. split; [reflexivity | right; reflexivity].
Defined.

End PollerProofs.

(* --------------------------------------------------------------------- *)
(** ** Whole doubles                                                      *)
(* --------------------------------------------------------------------- *)

Module JsFacts.
Import Js.

Lemma pow53 : (2 ^ 53 = 9007199254740992)%Z.
Proof. reflexivity. Qed.

Lemma exact_below_overflow : (9007199254740992 < overflow)%Z.
Proof. vm_compute. reflexivity. Qed.

(** Up to [2^53] in size every whole number is a double: nothing is rounded. *)
Lemma number_exact (z : Z) :
  (- 9007199254740992 <= z <= 9007199254740992)%Z -> number z = Finite z.
Proof.
  intros Hz. pose proof exact_below_overflow as Hbig.
  assert (Hpos : forall y, (0 <= y <= 9007199254740992)%Z -> round_pos y = y).
  { intros y Hy. unfold round_pos. rewrite pow53.
    destruct (Z.ltb_spec y 9007199254740992) as [Hlt|Hge]; [reflexivity|].
    assert (y = 9007199254740992%Z) as -> by lia. vm_compute. reflexivity. }
  assert (Hround : round z = z).
  { unfold round. destruct (Z.ltb_spec z 0).
    - rewrite Hpos by lia. lia.
    - apply Hpos. lia. }
  unfold number. rewrite Hround.
  destruct (Z.leb_spec overflow z); [lia|].
  destruct (Z.leb_spec z (- overflow)); [lia|]. reflexivity.
Qed.

Lemma add_exact (x y : Z) :
  (- 9007199254740992 <= x + y <= 9007199254740992)%Z ->
  add (Finite x) (Finite y) = Finite (x + y).
Proof. intros H. now apply number_exact. Qed.

Lemma sub_exact (x y : Z) :
  (- 9007199254740992 <= x - y <= 9007199254740992)%Z ->
  sub (Finite x) (Finite y) = Finite (x - y).
Proof.
  intros H. unfold sub, neg, add. replace (x + - y)%Z with (x - y)%Z by lia.
  now apply number_exact.
Qed.

Lemma mul_exact (x y : Z) :
  (- 9007199254740992 <= x * y <= 9007199254740992)%Z ->
  mul (Finite x) (Finite y) = Finite (x * y).
Proof. intros H. now apply number_exact. Qed.

(** The two bounds [getUsers] computes, when nothing is rounded. *)
Lemma page_bounds_exact (page limit : Z) :
  (1 <= page)%Z -> (1 <= limit)%Z -> (page * limit <= 9007199254740992)%Z ->
  mul (sub (number page) (Finite 1)) (number limit) = Finite ((page - 1) * limit) /\
  sub (add (Finite ((page - 1) * limit)) (number limit)) (Finite 1) =
    Finite ((page - 1) * limit + limit - 1).
Proof.
  intros Hp Hl Hpl.
  assert (page <= 9007199254740992)%Z by nia.
  assert (limit <= 9007199254740992)%Z by nia.
  assert (0 <= (page - 1) * limit <= 9007199254740992)%Z by nia.
  rewrite !number_exact by lia.
  rewrite sub_exact by lia. rewrite mul_exact by lia.
  rewrite add_exact by nia. rewrite sub_exact by nia. now split.
Qed.

End JsFacts.

(* --------------------------------------------------------------------- *)
(** ** The store client                                                   *)
(* --------------------------------------------------------------------- *)

Module StoreFacts.
Import Types Postgrest.

Lemma with_users_same (w : World) : with_users (users w) w = w.
Proof. now destruct w. Qed.

Lemma place_perm (le : User -> User -> bool) (u : User) (l : list User) :
  place le u l ≡ₚ u :: l.
Proof.
  induction l as [|v l IH]; simpl; [reflexivity|].
  destruct (le u v); [reflexivity|].
  rewrite IH. apply Permutation_swap.
Qed.

(** Ordering only rearranges the rows. *)
Lemma sort_by_perm (le : User -> User -> bool) (l : list User) : sort_by le l ≡ₚ l.
Proof.
  induction l as [|u l IH]; simpl; [reflexivity|].
  unfold sort_by in IH. rewrite place_perm. now rewrite IH.
Qed.

Lemma column_uuid (u : User) : column "uuid" u = uuid u.
Proof. reflexivity. Qed.

Lemma column_email (u : User) : column "email" u = Some (email u).
Proof. reflexivity. Qed.

Lemma column_signin_provider (u : User) : column "signin_provider" u = signin_provider u.
Proof. reflexivity. Qed.

Lemma column_created_at (u : User) : column "created_at" u = created_at u.
Proof. reflexivity. Qed.

Lemma window_ok_unwindowed (q : Query) : window q = None -> window_ok q = true.
Proof. intros H. unfold window_ok. now rewrite H. Qed.

Section WithBackend.
Variable B : Backend.

Lemma execute_read (q : Query) (columns : string) (tbl : list User) :
  table q = "users" -> verb q = Some (Read columns) -> window_ok q = true ->
  execute B q tbl = inr (Some (fetch B q tbl), tbl).
Proof. intros Ht Hv Hw. unfold execute. now rewrite Ht, Hv, Hw. Qed.

(** A request sent during an outage comes back with the outage's error,
    whatever it asked for. *)
Lemma await_down (q : Query) (w : World) (e : PostgrestError) :
  outage w = Some e ->
  await B q w = (Return (failed e), record_request q false w).
Proof. intros H. unfold await. simpl. now rewrite H. Qed.

Lemma single_down (q : Query) (w : World) (e : PostgrestError) :
  outage w = Some e ->
  single B q w = (Return (failed e), record_request q true w).
Proof. intros H. unfold single. simpl. now rewrite H. Qed.

Lemma await_read (q : Query) (columns : string) (w : World) :
  outage w = None -> table q = "users" -> verb q = Some (Read columns) ->
  window_ok q = true ->
  await B q w =
  (Return (ok (Some (fetch B q (users w)))), record_request q false w).
Proof.
  intros H Ht Hv Hw. unfold await. simpl. rewrite H.
  rewrite (execute_read q columns _ Ht Hv Hw).
  now destruct w.
Qed.

(** The three answers of a single-row read. *)
Lemma single_read (q : Query) (columns : string) (w : World) :
  outage w = None -> table q = "users" -> verb q = Some (Read columns) ->
  window_ok q = true ->
  single B q w =
  (Return (match fetch B q (users w) with
           | [] => failed no_rows
           | [u] => ok (Some u)
           | _ :: _ :: _ => failed (ambiguous B)
           end),
   record_request q true w).
Proof.
  intros H Ht Hv Hw. unfold single. simpl. rewrite H.
  rewrite (execute_read q columns _ Ht Hv Hw).
  destruct (fetch B q (users w)) as [|u [|v l]]; reflexivity.
Qed.

(** Whatever the store answers, an error never comes with data. *)
Lemma single_error_no_data (q : Query) (w : World) :
  exists r w', single B q w = (Return r, w') /\
               (error r <> None -> data r = None).
Proof.
  unfold single. simpl.
  destruct (outage w) as [e|]; [eexists _, _; split; [reflexivity|reflexivity]|].
  destruct (execute B q (users w)) as [e|[[[|u [|v l]]|] tbl']];
    eexists _, _; (split; [reflexivity|]); simpl; try reflexivity; intros H; now elim H.
Qed.

Lemma await_error_no_data (q : Query) (w : World) :
  exists r w', await B q w = (Return r, w') /\
               (error r <> None -> data r = None).
Proof.
  unfold await. simpl.
  destruct (outage w) as [e|]; [eexists _, _; split; [reflexivity|reflexivity]|].
  destruct (execute B q (users w)) as [e|[out tbl']];
    eexists _, _; (split; [reflexivity|]); simpl; try reflexivity; intros H; now elim H.
Qed.

(** With neither ordering nor window, a read is the filter alone. *)
Lemma fetch_plain (q : Query) (tbl : list User) :
  ordering q = None -> window q = None ->
  fetch B q tbl = filter (fun u => qualifies B q u = true) tbl.
Proof. intros Ho Hw. unfold fetch, windowed, ordered. now rewrite Ho, Hw. Qed.

Lemma fetch_unwindowed_perm (q : Query) (tbl : list User) :
  window q = None ->
  fetch B q tbl ≡ₚ filter (fun u => qualifies B q u = true) tbl.
Proof.
  intros Hw. unfold fetch, windowed, ordered. rewrite Hw.
  destruct (ordering q) as [[col asc]|]; [apply sort_by_perm | reflexivity].
Qed.

End WithBackend.

End StoreFacts.

(* --------------------------------------------------------------------- *)
(** ** [models/user.ts]                                                   *)
(* --------------------------------------------------------------------- *)

Module UserProofs.
Import Types Postgrest UserModel UserSpec StoreFacts.

Ltac run := unfold mbind, M_bind, mret, M_ret, throw, console_error.

(** The functions on the small store. *)
Example split_stamp : split "T" "2024-01-01T03:00:00Z" = ["2024-01-01"; "03:00:00Z"].
Proof. reflexivity. Qed.

Example split_without_separator : split "T" "2024-01-01" = ["2024-01-01"].
Proof. reflexivity. Qed.

Example count_three_rows :
  fst (getUserCountByDate demo "2024-01-01T00:00:00Z" (up [carol; bob; alice])) =
  Return (Some {[ "2024-01-01" := 2; "2024-01-02" := 1 ]}).
Proof. vm_compute. reflexivity. Qed.

Example count_from_second_day :
  fst (getUserCountByDate demo "2024-01-02T00:00:00Z" (up [carol; bob; alice])) =
  Return (Some {[ "2024-01-02" := 1 ]}).
Proof. vm_compute. reflexivity. Qed.

Example find_bob : fst (findUserByUuid demo "u2" (up [alice; bob])) = Return (Some bob).
Proof. reflexivity. Qed.

Example find_nobody : fst (findUserByUuid demo "u9" (up [alice; bob])) = Return None.
Proof. reflexivity. Qed.

Example total_of_two : fst (getUsersTotal demo (up [alice; bob])) = Return (Some 2).
Proof. reflexivity. Qed.

Example page_of_one :
  fst (getUsers demo (Some 2%Z) (Some 1%Z) (up [alice; bob])) = Return (Some [alice]).
Proof. reflexivity. Qed.

(** *** [getUsers] *)

(** As the design document words C4, every [page >= 1] and [limit >= 1]
    give the range [(page-1)*limit] to [(page-1)*limit + limit - 1].
    The bounds are computed in doubles: for page 4503599627370498 and
    limit 2 the offset 9007199254740994 is exact, but the upper bound
    9007199254740995 is not a double and the request carries
    9007199254740996. *)
Lemma getUsers_rounds_large_bounds_counterexample :
  (1 <= 4503599627370498)%Z /\ (1 <= 2)%Z /\
  ((4503599627370498 - 1) * 2 = 9007199254740994)%Z /\
  ((4503599627370498 - 1) * 2 + 2 - 1 = 9007199254740995)%Z /\
  window (fst (List.last (sent (snd (getUsers demo (Some 4503599627370498%Z) (Some 2%Z)
                                       (up [alice; bob]))))
                         (from "users", false))) =
    Some (Js.Finite 9007199254740994, Js.Finite 9007199254740996) /\
  window (fst (List.last (sent (snd (getUsers demo (Some 4503599627370498%Z) (Some 2%Z)
                                       (up [alice; bob]))))
                         (from "users", false))) <>
    Some (Js.Finite 9007199254740994, Js.Finite 9007199254740995).
Proof.
  assert (Hwin :
    window (fst (List.last (sent (snd (getUsers demo (Some 4503599627370498%Z) (Some 2%Z)
                                         (up [alice; bob]))))
                           (from "users", false))) =
    Some (Js.Finite 9007199254740994, Js.Finite 9007199254740996))
    by (lazy; reflexivity).
  repeat split; try lia; try exact Hwin.
  rewrite Hwin. intros [=].
Qed.

(** C4 (amended). For whole [page >= 1] and [limit >= 1] with
    [page * limit <= 2^53] (so that no bound is rounded),
    [getUsers(page, limit)] sends one request for the rows of [users]
    ordered by [created_at] descending at positions [(page-1)*limit] to
    [(page-1)*limit + limit - 1], both included; an omitted argument
    stands for [page = 1] or [limit = 50]; when the read fails the
    result is the empty array, whatever the arguments. *)
Theorem getUsers_requests_page_range (B : Backend) (w : World) (page limit : Z) :
  (1 <= page)%Z -> (1 <= limit)%Z -> (page * limit <= 9007199254740992)%Z ->
  let lo := ((page - 1) * limit)%Z in
  let hi := ((page - 1) * limit + limit - 1)%Z in
  let request :=
    {| table := "users"; verb := Some (Read "*"); returning := false; filters := [];
       ordering := Some ("created_at", false);
       window := Some (Js.Finite lo, Js.Finite hi) |} in
  sent (snd (getUsers B (Some page) (Some limit) w)) = sent w ++ [(request, false)] /\
  (0 <= lo <= hi)%Z /\ (hi - lo + 1 = limit)%Z /\
  getUsers B None None w = getUsers B (Some 1%Z) (Some 50%Z) w /\
  getUsers B (Some page) None w = getUsers B (Some page) (Some 50%Z) w /\
  getUsers B None (Some limit) w = getUsers B (Some 1%Z) (Some limit) w /\
  (outage w = None ->
   fst (getUsers B (Some page) (Some limit) w) = Return (Some (fetch B request (users w)))) /\
  (forall e p l, outage w = Some e -> fst (getUsers B p l w) = Return (Some [])).
Proof.
  intros Hp Hl Hpl lo hi request.
  destruct (JsFacts.page_bounds_exact page limit Hp Hl Hpl) as [Hlo Hhi].
  assert (Hrun : getUsers B (Some page) (Some limit) w =
                 (r ← await B request;
                  match error r with
                  | Some e => console_error "Error fetching users:" e ;; mret (Some [])
                  | None => mret (data r)
                  end) w).
  { unfold getUsers.
    change (default 1%Z (Some page)) with page.
    change (default 50%Z (Some limit)) with limit.
    cbv zeta. rewrite Hlo, Hhi. reflexivity. }
  split; [|split; [|split; [|split; [|split; [|split; [|split]]]]]].
  - rewrite Hrun. run.
    destruct (outage w) as [e|] eqn:Ho.
    + rewrite (await_down B _ _ _ Ho). reflexivity.
    + rewrite (await_read B request "*" w Ho eq_refl eq_refl eq_refl). reflexivity.
  - subst lo hi. nia.
  - subst lo hi. lia.
  - reflexivity.
  - reflexivity.
  - reflexivity.
  - intros Ho. rewrite Hrun. run.
    rewrite (await_read B request "*" w Ho eq_refl eq_refl eq_refl). reflexivity.
  - intros e p l Ho. unfold getUsers. run.
    rewrite (await_down B _ _ _ Ho). reflexivity.
Qed.

(** [getUsers(2, 10)] asks for positions 10 to 19. *)
Lemma getUsers_requests_page_range_witness :
  let request :=
    {| table := "users"; verb := Some (Read "*"); returning := false; filters := [];
       ordering := Some ("created_at", false);
       window := Some (Js.Finite 10, Js.Finite 19) |} in
  sent (snd (getUsers demo (Some 2%Z) (Some 10%Z) (up [alice; bob]))) = [(request, false)] /\
  (0 <= 10 <= 19)%Z /\ (19 - 10 + 1 = 10)%Z /\
  getUsers demo None None (up [alice; bob]) =
    getUsers demo (Some 1%Z) (Some 50%Z) (up [alice; bob]) /\
  getUsers demo (Some 2%Z) None (up [alice; bob]) =
    getUsers demo (Some 2%Z) (Some 50%Z) (up [alice; bob]) /\
  getUsers demo None (Some 10%Z) (up [alice; bob]) =
    getUsers demo (Some 1%Z) (Some 10%Z) (up [alice; bob]) /\
  (outage (up [alice; bob]) = None ->
   fst (getUsers demo (Some 2%Z) (Some 10%Z) (up [alice; bob])) =
   Return (Some (fetch demo request (users (up [alice; bob]))))) /\
  (forall e p l, outage (up [alice; bob]) = Some e ->
   fst (getUsers demo p l (up [alice; bob])) = Return (Some [])).
Proof.
  apply (getUsers_requests_page_range demo (up [alice; bob]) 2 10); lia.
Defined.

(** *** [getUsersByUuids] *)

Lemma qualifies_in_uuid (B : Backend) (q : Query) (uuids : list string) (u : User) :
  filters q = [In "uuid" uuids] -> qualifies B q u = uuid_in uuids u.
Proof.
  intros Hf. unfold qualifies. rewrite Hf. cbn [forallb holds].
  rewrite column_uuid. unfold uuid_in.
  destruct (uuid u); [apply andb_true_r | reflexivity].
Qed.

(** As the design document words C7, every call with a non-empty input
    returns the rows whose uuid is in the set.  With the store out of
    reach, a call for ["u1"] returns the empty array although the row
    exists. *)
Lemma getUsersByUuids_read_failure_counterexample :
  filter (fun u => uuid_in ["u1"] u = true) (users (down [alice; bob])) = [alice] /\
  fst (getUsersByUuids demo (Some ["u1"]) (down [alice; bob])) <> Return (Some [alice]) /\
  fst (getUsersByUuids demo (Some ["u1"]) (down [alice; bob])) = Return (Some []).
Proof. repeat split. discriminate. Qed.

(** C7 (amended). [getUsersByUuids] called with an empty (or missing)
    sequence returns the empty array at once and sends nothing to the
    store.  For a non-empty sequence it sends one request; when that read
    succeeds it returns exactly the rows whose uuid is in the given set,
    and when the read fails it returns the empty array. *)
Theorem getUsersByUuids_empty_or_members (B : Backend) (w : World) :
  getUsersByUuids B (Some []) w = (Return (Some []), w) /\
  getUsersByUuids B None w = (Return (Some []), w) /\
  (forall x uuids,
     let asked := x :: uuids in
     let request := from "users" |> select "*" |> in_ "uuid" asked in
     sent (snd (getUsersByUuids B (Some asked) w)) = sent w ++ [(request, false)] /\
     (outage w = None ->
      fst (getUsersByUuids B (Some asked) w) =
      Return (Some (filter (fun u => uuid_in asked u = true) (users w)))) /\
     (forall e, outage w = Some e ->
      fst (getUsersByUuids B (Some asked) w) = Return (Some []))).
Proof.
  split; [reflexivity|]. split; [reflexivity|].
  intros x uuids asked request.
  unfold getUsersByUuids.
  change (nothing_asked (Some asked)) with false. cbv iota.
  change (default [] (Some asked)) with asked. fold request. run.
  destruct (outage w) as [e|] eqn:Ho.
  - rewrite (await_down B _ _ _ Ho). cbn.
    split; [reflexivity|]. split; [discriminate|]. reflexivity.
  - rewrite (await_read B request "*" w Ho eq_refl eq_refl eq_refl). cbn [error ok data fst snd].
    split; [reflexivity|]. split; [|discriminate].
    intros _. rewrite fetch_plain by reflexivity.
    do 2 f_equal. apply list_filter_iff. intros u.
    now rewrite (qualifies_in_uuid B request asked u eq_refl).
Qed.

(** *** [insertUser] *)

(** C6. [insertUser(user)] returns the row as stored, generated columns
    included, when the store accepts it; when the store reports a failure
    (a constraint its write violates, or any other error) the call raises
    that failure, and it never returns a null result in its place. *)
Theorem insertUser_returns_stored_row_or_raises (B : Backend) (user : User) (w : World) :
  let stored := generated B (users w) user in
  let request := from "users" |> insert [user] |> select "*" in
  (outage w = None -> violation B (users w) (users w ++ [stored]) = None ->
   fst (insertUser B user w) = Return (Some stored) /\
   users (snd (insertUser B user w)) = users w ++ [stored]) /\
  (forall e, outage w = None -> violation B (users w) (users w ++ [stored]) = Some e ->
   fst (insertUser B user w) = Throw (Raised e) /\
   users (snd (insertUser B user w)) = users w) /\
  (forall e, outage w = Some e ->
   fst (insertUser B user w) = Throw (Raised e) /\
   users (snd (insertUser B user w)) = users w) /\
  (forall r w1 e, single B request w = (Return r, w1) -> error r = Some e ->
   fst (insertUser B user w) = Throw (Raised e)) /\
  (forall v, fst (insertUser B user w) = Return v -> v = Some stored).
Proof.
  intros stored request.
  assert (Hup : outage w = None ->
    single B request w =
    match violation B (users w) (users w ++ [stored]) with
    | Some e => (Return (failed e), record_request request true w)
    | None => (Return (ok (Some stored)),
               with_users (users w ++ [stored]) (record_request request true w))
    end).
  { intros Ho. unfold single. simpl. rewrite Ho. unfold execute. simpl.
    fold stored. destruct (violation B (users w) (users w ++ [stored])); reflexivity. }
  unfold insertUser. run. fold request.
  split; [|split; [|split; [|split]]].
  - intros Ho Hv. rewrite (Hup Ho), Hv. split; reflexivity.
  - intros e Ho Hv. rewrite (Hup Ho), Hv. split; reflexivity.
  - intros e Ho. rewrite (single_down B _ _ _ Ho). split; reflexivity.
  - intros r w1 e Hr He. rewrite Hr, He. reflexivity.
  - intros v. destruct (outage w) as [e|] eqn:Ho.
    + rewrite (single_down B _ _ _ Ho). discriminate.
    + rewrite (Hup eq_refl).
      destruct (violation B (users w) (users w ++ [stored])); cbn; [discriminate|].
      now intros [= <-].
Qed.

Lemma insertUser_returns_stored_row_witness :
  fst (insertUser demo carol (up [alice; bob])) = Return (Some (row 3 "u3" "c@x.io" "google" "2024-01-02T08:00:00Z")) /\
  fst (insertUser demo alice (up [alice; bob])) = Throw (Raised duplicate_key) /\
  fst (insertUser demo carol (down [alice; bob])) = Throw (Raised unreachable).
Proof.
  pose proof (insertUser_returns_stored_row_or_raises demo carol (up [alice; bob]))
    as (Hok & _).
  pose proof (insertUser_returns_stored_row_or_raises demo alice (up [alice; bob]))
    as (_ & Hdup & _).
  pose proof (insertUser_returns_stored_row_or_raises demo carol (down [alice; bob]))
    as (_ & _ & Hdown & _).
  split; [|split].
  - apply Hok; reflexivity.
  - apply (Hdup duplicate_key); reflexivity.
  - apply (Hdown unreachable); reflexivity.
Defined.

Lemma getUsersByUuids_members_witness :
  fst (getUsersByUuids demo (Some ["u2"; "u9"]) (up [alice; bob])) = Return (Some [bob]) /\
  fst (getUsersByUuids demo (Some ["u2"; "u9"]) (down [alice; bob])) = Return (Some []).
Proof.
  pose proof (getUsersByUuids_empty_or_members demo (up [alice; bob])) as (_ & _ & Hup).
  pose proof (getUsersByUuids_empty_or_members demo (down [alice; bob])) as (_ & _ & Hdown).
  destruct (Hup "u2" ["u9"]) as (_ & Hrows & _).
  destruct (Hdown "u2" ["u9"]) as (_ & _ & Hnone).
  split.
  - apply Hrows. reflexivity.
  - apply (Hnone unreachable). reflexivity.
Defined.

(** *** [updateUser] *)

Lemma qualifies_eq_uuid (B : Backend) (q : Query) (uuid0 : string) (u : User) :
  filters q = [Eq "uuid" uuid0] ->
  qualifies B q u = bool_decide (uuid u = Some uuid0).
Proof.
  intros Hf. unfold qualifies. rewrite Hf. cbn [forallb holds].
  rewrite column_uuid, andb_true_r.
  destruct (uuid u) as [x|].
  - destruct (String.eqb_spec x uuid0) as [->|Hne].
    + symmetry. now apply bool_decide_eq_true.
    + symmetry. apply bool_decide_eq_false. congruence.
  - symmetry. now apply bool_decide_eq_false.
Qed.

Lemma merge_overwritten (u : User) (p : Partial.PartialUser) :
  overwritten u p (Partial.merge u p).
Proof.
  unfold overwritten, Partial.merge, Partial.over, Partial.over_opt. cbn.
  repeat split;
    match goal with |- _ = match ?o with _ => _ end => destruct o; reflexivity end.
Qed.

Lemma updated_table_overwritten (uuid0 : string) (p : Partial.PartialUser) (tbl : list User) :
  table_overwritten uuid0 p tbl (updated_table uuid0 p tbl).
Proof.
  unfold updated_table. split; [apply length_map|].
  induction tbl as [|a tbl IH]; intros i r Hi; [discriminate Hi|].
  destruct i as [|i]; simpl in *.
  - injection Hi as ->. split.
    + intros Hr. rewrite bool_decide_eq_true_2 by exact Hr.
      eexists. split; [reflexivity | apply merge_overwritten].
    + intros Hr. now rewrite bool_decide_eq_false_2.
  - now apply IH.
Qed.

Lemma table_overwritten_same (uuid0 : string) (p : Partial.PartialUser) (tbl : list User) :
  Partial.has_fields p = false -> table_overwritten uuid0 p tbl tbl.
Proof.
  intros Hno. split; [reflexivity|]. intros i r Hi. split; [|tauto].
  intros _. exists r. split; [exact Hi|].
  unfold Partial.has_fields in Hno.
  repeat (apply orb_false_iff in Hno as [Hno ?]).
  unfold overwritten.
  repeat match goal with
         | H : Partial.is_Some_b ?o = false |- _ =>
             destruct o; [discriminate H | clear H]
         end.
  repeat split.
Qed.

Lemma single_update (B : Backend) (uuid0 : string) (updates : Partial.PartialUser) (w : World) :
  let request := from "users" |> update updates |> eq "uuid" uuid0 |> select "*" in
  outage w = None ->
  single B request w =
  if takes_effect B updates then
    match violation B (users w) (updated_table uuid0 updates (users w)) with
    | Some e => (Return (failed e), record_request request true w)
    | None =>
        match filter (fun u => uuid u = Some uuid0) (users w) with
        | [] => (Return (failed no_rows), record_request request true w)
        | [u] => (Return (ok (Some (Partial.merge u updates))),
                  with_users (updated_table uuid0 updates (users w))
                             (record_request request true w))
        | _ :: _ :: _ => (Return (failed (ambiguous B)), record_request request true w)
        end
    end
  else (Return (failed no_rows), record_request request true w).
Proof.
  intros request Ho. unfold single. simpl. rewrite Ho. unfold execute, takes_effect.
  change (table request) with "users". cbn [String.eqb Ascii.eqb Bool.eqb negb].
  change (verb request) with (Some (Update updates)).
  change (returning request) with true. cbv iota.
  rewrite <- negb_orb.
  destruct (Partial.has_fields updates || applies_empty_update B); [|reflexivity].
  cbn [negb].
  replace (map (fun u => if qualifies B request u then Partial.merge u updates else u) (users w))
    with (updated_table uuid0 updates (users w)).
  2:{ unfold updated_table. apply map_ext. intros u.
      now rewrite (qualifies_eq_uuid B request uuid0 u eq_refl). }
  replace (filter (fun u => qualifies B request u = true) (users w))
    with (filter (fun u => uuid u = Some uuid0) (users w)).
  2:{ apply list_filter_iff. intros u.
      rewrite (qualifies_eq_uuid B request uuid0 u eq_refl).
      symmetry. apply bool_decide_eq_true. }
  destruct (violation B (users w) (updated_table uuid0 updates (users w))); [reflexivity|].
  destruct (filter (fun u => uuid u = Some uuid0) (users w)) as [|u [|v l]]; reflexivity.
Qed.

(** C8. [updateUser(uuid, updates)] overwrites, in the row with that uuid,
    the fields present in [updates] (each of them takes the value given,
    every other field and every other row stays as it was) and returns
    the row as updated; when the store reports any failure it returns
    [null], and it never raises. *)
Theorem updateUser_returns_updated_row_or_null
    (B : Backend) (uuid0 : string) (updates : Partial.PartialUser) (w : World) :
  let request := from "users" |> update updates |> eq "uuid" uuid0 |> select "*" in
  let after := updated_table uuid0 updates (users w) in
  (exists v w', updateUser B uuid0 updates w = (Return v, w')) /\
  (forall u, outage w = None ->
     takes_effect B updates = true ->
     filter (fun u => uuid u = Some uuid0) (users w) = [u] ->
     violation B (users w) after = None ->
     exists x,
       fst (updateUser B uuid0 updates w) = Return (Some x) /\
       overwritten u updates x /\
       table_overwritten uuid0 updates (users w)
         (users (snd (updateUser B uuid0 updates w)))) /\
  (forall r w1 e, single B request w = (Return r, w1) -> error r = Some e ->
     fst (updateUser B uuid0 updates w) = Return None) /\
  (forall e, outage w = Some e ->
     fst (updateUser B uuid0 updates w) = Return None /\
     users (snd (updateUser B uuid0 updates w)) = users w) /\
  (forall e, outage w = None -> violation B (users w) after = Some e ->
     fst (updateUser B uuid0 updates w) = Return None /\
     users (snd (updateUser B uuid0 updates w)) = users w) /\
  (outage w = None -> filter (fun u => uuid u = Some uuid0) (users w) = [] ->
     fst (updateUser B uuid0 updates w) = Return None) /\
  (outage w = None -> takes_effect B updates = false ->
     fst (updateUser B uuid0 updates w) = Return None /\
     users (snd (updateUser B uuid0 updates w)) = users w) /\
  (forall x, fst (updateUser B uuid0 updates w) = Return (Some x) ->
     exists u, filter (fun u => uuid u = Some uuid0) (users w) = [u] /\
               overwritten u updates x /\
               table_overwritten uuid0 updates (users w)
                 (users (snd (updateUser B uuid0 updates w)))).
Proof.
  intros request after. subst request.
  unfold updateUser. run.
  split; [|split; [|split; [|split; [|split; [|split; [|split]]]]]].
  - destruct (single_error_no_data B
                (from "users" |> update updates |> eq "uuid" uuid0 |> select "*") w)
      as (r & w1 & Hr & _).
    rewrite Hr. destruct (error r); eexists _, _; reflexivity.
  - intros u Ho He Hu Hv.
    rewrite (single_update B uuid0 updates w Ho), He. fold after. rewrite Hv, Hu.
    exists (Partial.merge u updates). split; [reflexivity|].
    split; [apply merge_overwritten | apply updated_table_overwritten].
  - intros r w1 e Hr He. rewrite Hr, He. reflexivity.
  - intros e Ho. rewrite (single_down B _ _ _ Ho). split; reflexivity.
  - intros e Ho Hv.
    rewrite (single_update B uuid0 updates w Ho). fold after. rewrite Hv.
    destruct (takes_effect B updates); split; reflexivity.
  - intros Ho Hnone.
    rewrite (single_update B uuid0 updates w Ho). fold after.
    destruct (takes_effect B updates); [|reflexivity].
    destruct (violation B (users w) after); [reflexivity|].
    rewrite Hnone. reflexivity.
  - intros Ho He. rewrite (single_update B uuid0 updates w Ho), He. split; reflexivity.
  - intros x. destruct (outage w) as [e|] eqn:Ho.
    { rewrite (single_down B _ _ _ Ho). discriminate. }
    rewrite (single_update B uuid0 updates w Ho). fold after.
    destruct (takes_effect B updates); [|discriminate].
    destruct (violation B (users w) after); [discriminate|].
    destruct (filter (fun u => uuid u = Some uuid0) (users w)) as [|u [|v l]];
      cbn; try discriminate.
    intros [= <-]. exists u. split; [reflexivity|].
    split; [apply merge_overwritten | apply updated_table_overwritten].
Qed.

(** Renaming bob: the row that comes back, and the table afterwards,
    written out. *)
Lemma updateUser_returns_updated_row_witness :
  fst (updateUser demo "u2" (rename_to "bobby") (up [alice; bob])) = Return (Some bobby) /\
  overwritten bob (rename_to "bobby") bobby /\
  users (snd (updateUser demo "u2" (rename_to "bobby") (up [alice; bob]))) = [alice; bobby] /\
  table_overwritten "u2" (rename_to "bobby") [alice; bob] [alice; bobby] /\
  fst (updateUser demo "u2" (rename_to "bobby") (down [alice; bob])) = Return None /\
  fst (updateUser demo "u7" (rename_to "bobby") (up [alice; bob])) = Return None.
Proof.
  pose proof (updateUser_returns_updated_row_or_null demo "u2" (rename_to "bobby")
                (up [alice; bob])) as (_ & Hok & _).
  pose proof (updateUser_returns_updated_row_or_null demo "u2" (rename_to "bobby")
                (down [alice; bob])) as (_ & _ & _ & Hdown & _).
  pose proof (updateUser_returns_updated_row_or_null demo "u7" (rename_to "bobby")
                (up [alice; bob])) as (_ & _ & _ & _ & _ & Hmiss & _).
  destruct (Hok bob) as (x & Hrow & Hover & Htbl);
    [reflexivity | reflexivity | reflexivity | reflexivity |].
  destruct (Hdown unreachable) as [Hnull _]; [reflexivity|].
  assert (Hx : x = bobby).
  { assert (Hc : fst (updateUser demo "u2" (rename_to "bobby") (up [alice; bob])) =
                 Return (Some bobby)) by reflexivity.
    rewrite Hc in Hrow. now injection Hrow as <-. }
  subst x.
  assert (Hafter : users (snd (updateUser demo "u2" (rename_to "bobby") (up [alice; bob]))) =
                   [alice; bobby]) by reflexivity.
  rewrite Hafter in Htbl.
  split; [exact Hrow|]. split; [exact Hover|]. split; [exact Hafter|].
  split; [exact Htbl|]. split; [exact Hnull|].
  apply Hmiss; reflexivity.
Defined.

(** *** [findUserByEmail] and [findUserByUuid] *)

Lemma email_query_shape (email0 : string) (provider : option string) :
  table (email_query email0 provider) = "users" /\
  verb (email_query email0 provider) = Some (Read "*") /\
  ordering (email_query email0 provider) = None /\
  window (email_query email0 provider) = None.
Proof. destruct provider as [[|c p]|]; repeat split. Qed.

Lemma qualifies_email_query (B : Backend) (email0 : string) (provider : option string) (u : User) :
  qualifies B (email_query email0 provider) u = filter_applied email0 provider u.
Proof.
  unfold qualifies, filter_applied, provider_is.
  destruct provider as [[|c p]|]; cbn [email_query filters forallb holds from select eq
    with_filter with_verb verb app];
    rewrite ?column_email, ?column_signin_provider, ?andb_true_r; try reflexivity.
Qed.

Lemma applied_of_pair (email0 : string) (provider : option string) (u : User) :
  pair_matches email0 provider u = true -> filter_applied email0 provider u = true.
Proof.
  unfold pair_matches, filter_applied.
  destruct provider as [[|c p]|]; try tauto.
  intros H. apply andb_true_iff in H as [H _]. now rewrite H.
Qed.

Lemma applied_is_pair (email0 : string) (provider : option string) (u : User) :
  provider <> Some "" -> filter_applied email0 provider u = pair_matches email0 provider u.
Proof. destruct provider as [[|c p]|]; [congruence | reflexivity | reflexivity]. Qed.

Lemma length_filter_mono {A} (P Q : A -> bool) (l : list A) :
  (forall x, P x = true -> Q x = true) ->
  length (filter (fun x => P x = true) l) <= length (filter (fun x => Q x = true) l).
Proof.
  intros HPQ. induction l as [|x l IH]; [reflexivity|].
  rewrite !filter_cons.
  destruct (decide (P x = true)) as [HP|HP].
  - destruct (decide (Q x = true)) as [HQ|HQ]; [simpl; lia | now elim HQ; apply HPQ].
  - destruct (decide (Q x = true)); simpl; lia.
Qed.

(** What [findUserByEmail] returns, read off the rows that pass the
    filter of its request. *)
Lemma findUserByEmail_up (B : Backend) (email0 : string) (provider : option string) (w : World) :
  outage w = None ->
  fst (findUserByEmail B email0 provider w) =
  Return (match filter (fun u => filter_applied email0 provider u = true) (users w) with
          | [u] => Some u
          | _ => None
          end).
Proof.
  intros Ho. unfold findUserByEmail. run.
  change (match provider with
          | Some (String c p) =>
              from "users" |> select "*" |> eq "email" email0
                |> eq "signin_provider" (String c p)
          | _ => from "users" |> select "*" |> eq "email" email0
          end) with (email_query email0 provider).
  destruct (email_query_shape email0 provider) as (Ht & Hv & Hord & Hwin).
  rewrite (single_read B _ "*" w Ho Ht Hv (window_ok_unwindowed _ Hwin)).
  rewrite (fetch_plain B _ _ Hord Hwin).
  rewrite (list_filter_iff (fun u => qualifies B (email_query email0 provider) u = true)
             (fun u => filter_applied email0 provider u = true)).
  2:{ intros u. now rewrite qualifies_email_query. }
  destruct (filter (fun u => filter_applied email0 provider u = true) (users w))
    as [|u [|v l]]; cbn; try reflexivity.
  destruct (String.eqb (code (ambiguous B)) "PGRST116"); reflexivity.
Qed.

Lemma findUserByEmail_down (B : Backend) (email0 : string) (provider : option string)
    (w : World) (e : PostgrestError) :
  outage w = Some e -> fst (findUserByEmail B email0 provider w) = Return None.
Proof.
  intros Ho. unfold findUserByEmail. run.
  rewrite (single_down B _ _ _ Ho). cbn.
  destruct (String.eqb (code e) "PGRST116"); reflexivity.
Qed.

Lemma findUserByUuid_up (B : Backend) (uuid0 : string) (w : World) :
  outage w = None ->
  fst (findUserByUuid B uuid0 w) =
  Return (match filter (fun u => uuid u = Some uuid0) (users w) with
          | [u] => Some u
          | _ => None
          end).
Proof.
  intros Ho. unfold findUserByUuid. run.
  rewrite (single_read B (from "users" |> select "*" |> eq "uuid" uuid0) "*" w Ho
             eq_refl eq_refl eq_refl).
  rewrite (fetch_plain B (from "users" |> select "*" |> eq "uuid" uuid0) _ eq_refl eq_refl).
  rewrite (list_filter_iff
             (fun u => qualifies B (from "users" |> select "*" |> eq "uuid" uuid0) u = true)
             (fun u => uuid u = Some uuid0)).
  2:{ intros u.
      rewrite (qualifies_eq_uuid B (from "users" |> select "*" |> eq "uuid" uuid0)
                 uuid0 u eq_refl).
      apply bool_decide_eq_true. }
  destruct (filter (fun u => uuid u = Some uuid0) (users w)) as [|u [|v l]];
    cbn; try reflexivity.
  destruct (String.eqb (code (ambiguous B)) "PGRST116"); reflexivity.
Qed.

Lemma findUserByUuid_down (B : Backend) (uuid0 : string) (w : World) (e : PostgrestError) :
  outage w = Some e -> fst (findUserByUuid B uuid0 w) = Return None.
Proof.
  intros Ho. unfold findUserByUuid. run.
  rewrite (single_down B _ _ _ Ho). cbn.
  destruct (String.eqb (code e) "PGRST116"); reflexivity.
Qed.

Lemma findUserByEmail_never_raises (B : Backend) (email0 : string) (provider : option string)
    (w : World) :
  exists v w', findUserByEmail B email0 provider w = (Return v, w').
Proof.
  unfold findUserByEmail. run.
  match goal with
  | |- context [single B ?q w] =>
      destruct (single_error_no_data B q w) as (r & w1 & Hr & _); rewrite Hr
  end.
  destruct (error r) as [e|]; [|eexists _, _; reflexivity].
  destruct (negb (String.eqb (code e) "PGRST116")); eexists _, _; reflexivity.
Qed.

(** As the design document words C5, the provider is any optional string.
    For the empty string the request filters on the email alone: with
    [anna_plain] and [anna_google] stored, exactly one row matches
    [("a@x.io", "")] and yet the call returns [null]; and with only
    [anna_google] stored, no row matches [("a@x.io", "")] and yet the call
    returns that account. *)
Lemma findUserByEmail_empty_provider_counterexample :
  (filter (fun u => pair_matches "a@x.io" (Some "") u = true)
          (users (up [anna_plain; anna_google])) = [anna_plain] /\
   outage (up [anna_plain; anna_google]) = None /\
   fst (findUserByEmail demo "a@x.io" (Some "") (up [anna_plain; anna_google]))
     <> Return (Some anna_plain)) /\
  (filter (fun u => pair_matches "a@x.io" (Some "") u = true)
          (users (up [anna_google])) = [] /\
   outage (up [anna_google]) = None /\
   fst (findUserByEmail demo "a@x.io" (Some "") (up [anna_google])) <> Return None).
Proof. repeat split; discriminate. Qed.

(** C5 (amended). A provider that is the empty string counts as omitted:
    the request then filters on the email alone.  With that reading of
    "matches", for every email and optional provider [findUserByEmail]
    returns [null] when no row matches and when the read fails for any
    other reason, never raises, and returns the row when the read succeeds
    and exactly one row matches. *)
Theorem findUserByEmail_null_or_single_match
    (B : Backend) (email0 : string) (provider : option string) (w : World) :
  let passing := filter (fun u => filter_applied email0 provider u = true) (users w) in
  (exists v w', findUserByEmail B email0 provider w = (Return v, w')) /\
  (forall e, outage w = Some e ->
     fst (findUserByEmail B email0 provider w) = Return None) /\
  (outage w = None -> passing = [] ->
     fst (findUserByEmail B email0 provider w) = Return None) /\
  (forall u, outage w = None -> passing = [u] ->
     fst (findUserByEmail B email0 provider w) = Return (Some u)) /\
  (provider <> Some "" ->
     passing = filter (fun u => pair_matches email0 provider u = true) (users w)) /\
  (provider = Some "" ->
     passing = filter (fun u => pair_matches email0 None u = true) (users w)).
Proof.
  intros passing. split; [apply findUserByEmail_never_raises|].
  split; [intros e Ho; now apply (findUserByEmail_down B email0 provider w e)|].
  split; [|split; [|split]].
  - intros Ho Hnone. rewrite (findUserByEmail_up B email0 provider w Ho).
    fold passing. now rewrite Hnone.
  - intros u Ho Hone. rewrite (findUserByEmail_up B email0 provider w Ho).
    fold passing. now rewrite Hone.
  - intros Hp. apply list_filter_iff. intros u. now rewrite (applied_is_pair _ _ _ Hp).
  - intros ->. reflexivity.
Qed.

Lemma findUserByEmail_single_match_witness :
  fst (findUserByEmail demo "a@x.io" (Some "google") (up [anna_plain; anna_google]))
    = Return (Some anna_google) /\
  fst (findUserByEmail demo "b@x.io" None (up [alice; bob])) = Return (Some bob) /\
  fst (findUserByEmail demo "z@x.io" None (up [alice; bob])) = Return None /\
  fst (findUserByEmail demo "b@x.io" None (down [alice; bob])) = Return None.
Proof.
  pose proof (findUserByEmail_null_or_single_match demo "a@x.io" (Some "google")
                (up [anna_plain; anna_google])) as (_ & _ & _ & H1 & _).
  pose proof (findUserByEmail_null_or_single_match demo "b@x.io" None
                (up [alice; bob])) as (_ & _ & _ & H2 & _).
  pose proof (findUserByEmail_null_or_single_match demo "z@x.io" None
                (up [alice; bob])) as (_ & _ & H3 & _).
  pose proof (findUserByEmail_null_or_single_match demo "b@x.io" None
                (down [alice; bob])) as (_ & H4 & _).
  split; [apply H1; reflexivity|].
  split; [apply H2; reflexivity|].
  split; [apply H3; reflexivity|].
  apply (H4 unreachable); reflexivity.
Defined.

(** C9. When more than one stored row matches the email (and the provider,
    if one is given), [findUserByEmail] returns [null], not one of the
    matching rows; so does [findUserByUuid] when the uuid is stored more
    than once.  This holds whichever error the single-row read reports
    for several rows, since an error response carries no data. *)
Theorem duplicate_matches_yield_null (B : Backend) (w : World) :
  (forall email0 provider,
     2 <= length (filter (fun u => pair_matches email0 provider u = true) (users w)) ->
     fst (findUserByEmail B email0 provider w) = Return None) /\
  (forall uuid0,
     2 <= length (filter (fun u => uuid u = Some uuid0) (users w)) ->
     fst (findUserByUuid B uuid0 w) = Return None).
Proof.
  split.
  - intros email0 provider Hmany.
    destruct (outage w) as [e|] eqn:Ho; [now apply (findUserByEmail_down B _ _ w e)|].
    rewrite (findUserByEmail_up B email0 provider w Ho).
    pose proof (length_filter_mono (pair_matches email0 provider)
                  (filter_applied email0 provider) (users w)
                  (applied_of_pair email0 provider)) as Hle.
    destruct (filter (fun u => filter_applied email0 provider u = true) (users w))
      as [|u [|v l]]; simpl in Hle; [lia | lia | reflexivity].
  - intros uuid0 Hmany.
    destruct (outage w) as [e|] eqn:Ho; [now apply (findUserByUuid_down B _ w e)|].
    rewrite (findUserByUuid_up B uuid0 w Ho).
    destruct (filter (fun u => uuid u = Some uuid0) (users w)) as [|u [|v l]];
      simpl in Hmany; [lia | lia | reflexivity].
Qed.

Lemma duplicate_matches_yield_null_witness :
  fst (findUserByEmail strict "b@x.io" (Some "google") (up [alice; bob; bob_again]))
    = Return None /\
  fst (findUserByEmail demo "b@x.io" None (up [alice; bob; bob_again])) = Return None /\
  fst (findUserByUuid strict "u2" (up [alice; bob; bob_again])) = Return None /\
  fst (findUserByUuid demo "u2" (up [alice; bob; bob_again])) = Return None.
Proof.
  pose proof (duplicate_matches_yield_null strict (up [alice; bob; bob_again])) as [He Hu].
  pose proof (duplicate_matches_yield_null demo (up [alice; bob; bob_again])) as [He' Hu'].
  split; [apply He; simpl; lia|].
  split; [apply He'; simpl; lia|].
  split; [apply Hu; simpl; lia|].
  apply Hu'; simpl; lia.
Defined.

(** *** [getUserCountByDate] *)

Lemma split_nonempty (sep : ascii) (s : string) : split sep s <> [].
Proof.
  induction s as [|c s IH]; simpl; [discriminate|].
  destruct (Ascii.eqb c sep); [discriminate|].
  destruct (split sep s); [contradiction | discriminate].
Qed.

Lemma is_digit_not_T (c : ascii) : is_digit c = true -> Ascii.eqb c "T" = false.
Proof.
  intros H. destruct (Ascii.eqb_spec c "T") as [->|]; [discriminate H | reflexivity].
Qed.

Lemma is_dash_not_T (c : ascii) : Ascii.eqb c "-" = true -> Ascii.eqb c "T" = false.
Proof. intros H. apply Ascii.eqb_eq in H. now subst. Qed.

(** On an ISO timestamp, the text before the first ["T"] is the date portion. *)
Lemma first_piece_iso (s : string) :
  iso_stamp s = true -> first_piece (split "T" s) = date_portion s.
Proof.
  intros H.
  do 11 (destruct s as [|? s]; [discriminate H|]).
  cbn [iso_stamp] in H.
  do 10 (apply andb_true_iff in H as [H ?]).
  repeat match goal with
         | Hd : is_digit _ = true |- _ => apply is_digit_not_T in Hd
         | Hd : Ascii.eqb _ "-" = true |- _ => apply is_dash_not_T in Hd
         end.
  cbn [split].
  repeat match goal with
         | Hd : Ascii.eqb _ "T" = _ |- _ => rewrite Hd; clear Hd
         end.
  reflexivity.
Qed.

Lemma date_key_iso (u : User) (stamp : string) :
  created_at u = Some stamp -> iso_stamp stamp = true ->
  date_key u = date_portion <$> created_at u.
Proof.
  intros Hc Hiso. unfold date_key. rewrite Hc. simpl. now rewrite first_piece_iso.
Qed.

Lemma or_zero_succ (n : nat) : or_zero (Some (n + 1)) = n + 1.
Proof. now rewrite Nat.add_1_r. Qed.

Lemma occurrences_cons (d : string) (u : User) (items : list User) :
  occurrences d (u :: items) =
  (if decide (date_key u = Some d) then 1 else 0) + occurrences d items.
Proof.
  unfold occurrences. rewrite filter_cons.
  destruct (decide (date_key u = Some d)); reflexivity.
Qed.

(** One call of the callback adds one to the total, whatever was stored. *)
Lemma total_bump (m : gmap string nat) (d : string) :
  total (<[d := or_zero (m !! d) + 1]> m) = total m + 1.
Proof.
  unfold total.
  assert (Hcomm : forall (m' : gmap string nat) (j1 j2 : string) (z1 z2 y : nat),
             j1 <> j2 -> m' !! j1 = Some z1 -> m' !! j2 = Some z2 ->
             z1 + (z2 + y) = z2 + (z1 + y)) by (intros; lia).
  destruct (m !! d) as [c|] eqn:Hd.
  - rewrite <- insert_delete_eq.
    rewrite map_fold_insert_L; [|apply Hcomm|apply lookup_delete_eq].
    rewrite (map_fold_delete_L _ _ d c m); [|apply Hcomm|exact Hd].
    destruct c; simpl; lia.
  - rewrite map_fold_insert_L; [|apply Hcomm|exact Hd]. simpl. lia.
Qed.

(** The loop over the rows: what it leaves in the map. *)
Lemma forEach_counts (items : list User) :
  forall m m',
    forEach items m = Return m' ->
    (forall d, m !! d <> Some 0) ->
    (forall d, m' !! d <> Some 0) /\
    (forall d, or_zero (m' !! d) = or_zero (m !! d) + occurrences d items) /\
    total m' = total m + length items.
Proof.
  induction items as [|item items IH]; intros m m' Hrun Hpos.
  - injection Hrun as <-. split; [exact Hpos|]. split; [|simpl; lia].
    intros d. unfold occurrences. simpl. lia.
  - cbn [forEach] in Hrun. unfold count_item in Hrun.
    destruct (created_at item) as [stamp|] eqn:Hstamp; [|discriminate Hrun].
    set (date := first_piece (split "T" stamp)) in *.
    assert (Hkey : date_key item = Some date) by (unfold date_key; now rewrite Hstamp).
    destruct (IH _ _ Hrun) as (Hpos' & Hcount & Htotal).
    { intros d. destruct (decide (date = d)) as [<-|Hne].
      - rewrite lookup_insert_eq. intros [= H0]. lia.
      - rewrite lookup_insert_ne by exact Hne. apply Hpos. }
    split; [exact Hpos'|]. split.
    + intros d. rewrite Hcount, occurrences_cons, Hkey.
      destruct (decide (date = d)) as [<-|Hne].
      * rewrite lookup_insert_eq, or_zero_succ.
        destruct (decide (Some date = Some date)); [lia | congruence].
      * rewrite lookup_insert_ne by exact Hne.
        destruct (decide (Some date = Some d)); [congruence | lia].
    + rewrite Htotal, total_bump. simpl. lia.
Qed.

Lemma forEach_returns (items : list User) :
  Forall (fun u => is_Some (created_at u)) items ->
  forall m, exists m', forEach items m = Return m'.
Proof.
  induction 1 as [|item items [stamp Hstamp] _ IH]; intros m.
  - now exists m.
  - cbn [forEach]. unfold count_item. rewrite Hstamp. apply IH.
Qed.

(** The read hands back those rows, in some order. *)
Lemma fetch_since_perm (B : Backend) (startTime : string) (tbl : list User) :
  fetch B (since_query startTime) tbl ≡ₚ created_since B startTime tbl.
Proof.
  rewrite (fetch_unwindowed_perm B (since_query startTime) tbl eq_refl).
  unfold created_since.
  rewrite (list_filter_iff (fun u => qualifies B (since_query startTime) u = true)
             (fun u => holds B (Gte "created_at" startTime) u = true)); [reflexivity|].
  intros u. unfold qualifies. cbn [since_query filters forallb from select gte order
    with_filter with_verb verb app]. now rewrite andb_true_r.
Qed.

Lemma getUserCountByDate_up (B : Backend) (startTime : string) (w : World) :
  outage w = None ->
  fst (getUserCountByDate B startTime w) =
  match forEach (fetch B (since_query startTime) (users w)) ∅ with
  | Return m => Return (Some m)
  | Throw e => Throw e
  end.
Proof.
  intros Ho. unfold getUserCountByDate. run. fold (since_query startTime).
  rewrite (await_read B (since_query startTime) "created_at" w Ho eq_refl eq_refl eq_refl).
  cbn [error ok data].
  destruct (forEach (fetch B (since_query startTime) (users w)) ∅); reflexivity.
Qed.

Lemma getUserCountByDate_down (B : Backend) (startTime : string) (w : World)
    (e : PostgrestError) :
  outage w = Some e -> fst (getUserCountByDate B startTime w) = Return None.
Proof.
  intros Ho. unfold getUserCountByDate. run.
  rewrite (await_down B _ _ _ Ho). reflexivity.
Qed.

Lemma occurrences_perm (d : string) (l1 l2 : list User) :
  l1 ≡ₚ l2 -> occurrences d l1 = occurrences d l2.
Proof. intros H. unfold occurrences. now rewrite H. Qed.

(** On ISO timestamps the key is the calendar-date portion. *)
Lemma occurrences_iso (d : string) (items : list User) :
  Forall (fun u => exists stamp, created_at u = Some stamp /\ iso_stamp stamp = true) items ->
  occurrences d items =
  length (filter (fun u => date_portion <$> created_at u = Some d) items).
Proof.
  induction 1 as [|u items (stamp & Hstamp & Hiso) _ IH]; [reflexivity|].
  rewrite occurrences_cons, IH, filter_cons.
  rewrite (date_key_iso u stamp Hstamp Hiso).
  destruct (decide (date_portion <$> created_at u = Some d)); reflexivity.
Qed.

Lemma clock_minutes_range (s : string) (t : Z) :
  clock_minutes s = Some t -> (0 <= t < 1440)%Z.
Proof.
  unfold clock_minutes.
  destruct (substring 11 5 s) as [|h1 [|h2 [|c [|m1 [|m2 [|? ?]]]]]]; try discriminate.
  unfold number2.
  destruct (is_digit h1 && is_digit h2) eqn:Hh; [|discriminate].
  destruct (is_digit m1 && is_digit m2) eqn:Hm; [|discriminate].
  destruct (Ascii.eqb c ":" && _ && _) eqn:Hc; [|discriminate].
  intros [= <-].
  apply andb_true_iff in Hh as [Hh1 Hh2]. apply andb_true_iff in Hm as [Hm1 Hm2].
  apply andb_true_iff in Hc as [Hc Hm60]. apply andb_true_iff in Hc as [_ Hh24].
  unfold is_digit in *.
  repeat match goal with
         | H : _ && _ = true |- _ => apply andb_true_iff in H as [? ?]
         | H : Nat.leb _ _ = true |- _ => apply Nat.leb_le in H
         end.
  unfold digit in *. lia.
Qed.

Lemma civil_iso (s : string) : iso_stamp s = true -> exists day, civil s = Some day.
Proof.
  destruct s as [|y1 [|y2 [|y3 [|y4 [|h1 [|m1 [|m2 [|h2 [|d1 [|d2 [|t s]]]]]]]]]]];
    try discriminate.
  intros _. eexists. reflexivity.
Qed.

(** A timestamp written in UTC has the date it shows. *)
Lemma utc_date_in_utc (s : string) : in_utc s = true -> utc_date s = Some (date_portion s).
Proof.
  unfold in_utc, utc_date. intros H. apply andb_true_iff in H as [Hiso H].
  rewrite Hiso. destruct (civil_iso s Hiso) as [day ->].
  destruct (clock_minutes s) as [t|] eqn:Ht; [|discriminate].
  destruct (zone_minutes s) as [[| |]|]; try discriminate.
  pose proof (clock_minutes_range s t Ht) as Hrange.
  replace (t - 0)%Z with t by lia.
  destruct (Z.ltb_spec t 0); [lia|]. destruct (Z.leb_spec 1440 t); [lia|]. reflexivity.
Qed.

Lemma on_utc_date_in_utc (d : string) (items : list User) :
  Forall (fun u => exists stamp, created_at u = Some stamp /\ in_utc stamp = true) items ->
  on_utc_date d items = filter (fun u => date_portion <$> created_at u = Some d) items.
Proof.
  unfold on_utc_date.
  induction 1 as [|u items (stamp & Hstamp & Hutc) _ IH]; [reflexivity|].
  rewrite !filter_cons, IH, Hstamp. cbn [mbind option_bind fmap option_fmap option_map].
  rewrite (utc_date_in_utc stamp Hutc). reflexivity.
Qed.

(** As the design document words C3, the key is the UTC calendar date for
    every ISO timestamp.  [2024-01-01T23:30:00-05:00] is the instant
    04:30 of 2 January 2024 in UTC, and the row stamped so is counted
    under ["2024-01-01"]: the map holds nothing under its UTC date. *)
Lemma getUserCountByDate_offset_stamp_counterexample :
  created_at late = Some "2024-01-01T23:30:00-05:00" /\
  iso_stamp "2024-01-01T23:30:00-05:00" = true /\
  utc_date "2024-01-01T23:30:00-05:00" = Some "2024-01-02" /\
  outage (up [late]) = None /\
  created_since demo "2024-01-01T00:00:00Z" (users (up [late])) = [late] /\
  exists m,
    fst (getUserCountByDate demo "2024-01-01T00:00:00Z" (up [late])) = Return (Some m) /\
    m !! "2024-01-01" = Some 1 /\
    m !! "2024-01-02" = None /\
    m !! "2024-01-02" <>
      count_of (length (on_utc_date "2024-01-02"
                          (created_since demo "2024-01-01T00:00:00Z" (users (up [late]))))).
Proof.
  do 5 (split; [vm_compute; reflexivity|]).
  eexists. split; [vm_compute; reflexivity|].
  split; [vm_compute; reflexivity|]. split; [vm_compute; reflexivity|].
  vm_compute. discriminate.
Qed.

(** C3 (amended). When the read succeeds and the [created_at] of the rows
    are ISO timestamps, [getUserCountByDate(startTime)] returns the map
    that gives, for each date, the number of rows created at or after
    [startTime] whose [created_at] shows that date (its first ten
    characters); when moreover the timestamps are written in UTC (zone
    [Z] or a zero offset) that is the number of rows whose instant falls
    on that UTC calendar date (rows stamped [2024-01-01T03:00:00Z] and
    [2024-01-01T23:00:00Z] both count under ["2024-01-01"]); when the
    read fails it returns [undefined]. *)
Theorem getUserCountByDate_groups_by_date_portion
    (B : Backend) (startTime : string) (w : World) :
  let rows := created_since B startTime (users w) in
  (forall e, outage w = Some e ->
     fst (getUserCountByDate B startTime w) = Return None) /\
  (outage w = None ->
   Forall (fun u => exists stamp, created_at u = Some stamp /\ iso_stamp stamp = true) rows ->
   exists m,
     fst (getUserCountByDate B startTime w) = Return (Some m) /\
     (forall d,
        m !! d =
        count_of (length (filter (fun u => date_portion <$> created_at u = Some d) rows))) /\
     (Forall (fun u => exists stamp, created_at u = Some stamp /\ in_utc stamp = true) rows ->
      forall d, m !! d = count_of (length (on_utc_date d rows)))).
Proof.
  intros rows. split; [intros e Ho; now apply (getUserCountByDate_down B _ w e)|].
  intros Ho Hiso.
  pose proof (fetch_since_perm B startTime (users w)) as Hperm. fold rows in Hperm.
  rewrite (getUserCountByDate_up B startTime w Ho).
  assert (Hiso' : Forall (fun u => exists stamp, created_at u = Some stamp /\
                                   iso_stamp stamp = true)
                         (fetch B (since_query startTime) (users w)))
    by now rewrite Hperm.
  destruct (forEach_returns (fetch B (since_query startTime) (users w))) with (m := ∅ : gmap string nat)
    as [m Hm].
  { eapply Forall_impl; [exact Hiso'|]. intros u (stamp & -> & _). now eexists. }
  exists m. rewrite Hm. split; [reflexivity|].
  destruct (forEach_counts _ _ _ Hm) as (Hpos & Hcount & _).
  { intros d. now rewrite lookup_empty. }
  assert (Hshown : forall d,
             m !! d =
             count_of (length (filter (fun u => date_portion <$> created_at u = Some d) rows))).
  { intros d. specialize (Hcount d). specialize (Hpos d).
    rewrite lookup_empty in Hcount. cbn [or_zero] in Hcount.
    rewrite (occurrences_perm d _ _ Hperm), (occurrences_iso d rows Hiso) in Hcount.
    rewrite Nat.add_0_l in Hcount.
    destruct (m !! d) as [[|c]|]; cbn [or_zero] in Hcount.
    - congruence.
    - now rewrite <- Hcount.
    - now rewrite <- Hcount. }
  split; [exact Hshown|].
  intros Hutc d. rewrite (on_utc_date_in_utc d rows Hutc). apply Hshown.
Qed.

(** The two rows of the design document's example. *)
Lemma getUserCountByDate_groups_witness :
  exists m,
    fst (getUserCountByDate demo "2024-01-01T00:00:00Z" (up [alice; bob])) = Return (Some m) /\
    m !! "2024-01-01" = Some 2 /\
    m !! "2024-01-02" = None /\
    on_utc_date "2024-01-01"
      (created_since demo "2024-01-01T00:00:00Z" (users (up [alice; bob]))) = [alice; bob].
Proof.
  destruct (getUserCountByDate_groups_by_date_portion demo "2024-01-01T00:00:00Z"
              (up [alice; bob])) as [_ Hup].
  destruct Hup as (m & Hm & _ & Hcount).
  - reflexivity.
  - repeat constructor; eexists; (split; [reflexivity | reflexivity]).
  - exists m. split; [exact Hm|].
    assert (Hutc : Forall (fun u => exists stamp, created_at u = Some stamp /\
                                                  in_utc stamp = true)
                          (created_since demo "2024-01-01T00:00:00Z" (users (up [alice; bob])))).
    { repeat constructor; eexists; (split; [reflexivity | reflexivity]). }
    split; [rewrite (Hcount Hutc); reflexivity|].
    split; [rewrite (Hcount Hutc); reflexivity|]. reflexivity.
Defined.

(** C10. Whenever [getUserCountByDate(startTime)] returns a map, every
    count in it is at least 1 (no date is present with count zero) and
    the counts add up to the number of rows with [created_at >= startTime]. *)
Theorem getUserCountByDate_counts_positive_and_exhaustive
    (B : Backend) (startTime : string) (w : World) (m : gmap string nat) :
  fst (getUserCountByDate B startTime w) = Return (Some m) ->
  (forall d c, m !! d = Some c -> 1 <= c) /\
  (forall d, m !! d <> Some 0) /\
  total m = length (created_since B startTime (users w)).
Proof.
  intros Hrun.
  destruct (outage w) as [e|] eqn:Ho.
  { rewrite (getUserCountByDate_down B startTime w e Ho) in Hrun. discriminate Hrun. }
  rewrite (getUserCountByDate_up B startTime w Ho) in Hrun.
  destruct (forEach (fetch B (since_query startTime) (users w)) ∅) as [m'|] eqn:Hm;
    [|discriminate Hrun].
  injection Hrun as ->.
  destruct (forEach_counts _ _ _ Hm) as (Hpos & _ & Htotal).
  { intros d. now rewrite lookup_empty. }
  split; [|split].
  - intros d [|c] Hd; [now elim (Hpos d) | lia].
  - exact Hpos.
  - rewrite Htotal. unfold total at 1. rewrite map_fold_empty. simpl.
    now rewrite (fetch_since_perm B startTime (users w)).
Qed.

Lemma getUserCountByDate_counts_witness :
  (forall d c, ({[ "2024-01-01" := 2 ]} : gmap string nat) !! d = Some c -> 1 <= c) /\
  (forall d, ({[ "2024-01-01" := 2 ]} : gmap string nat) !! d <> Some 0) /\
  total {[ "2024-01-01" := 2 ]} =
    length (created_since demo "2024-01-01T00:00:00Z" (users (up [alice; bob]))).
Proof.
  apply (getUserCountByDate_counts_positive_and_exhaustive demo "2024-01-01T00:00:00Z"
           (up [alice; bob])).
  vm_compute. reflexivity.
Defined.

End UserProofs.

(* --------------------------------------------------------------------- *)
(** ** More on the poller                                                 *)
(* --------------------------------------------------------------------- *)

Module PollerExtras.
Import Poller PollerSpec PollerSamples PollerProofs.

(** What the trace measures after [k] idle rounds and one more poll. *)
Lemma measures_after_idle (url : string) (ps : list (option Z)) :
  let tr := [Posted] ++ rounds url ps ++ [Slept pollInterval; Polled url] in
  polls_made tr = S (length ps) /\
  intervals tr = S (length ps) /\
  waited tr = (Z.of_nat (S (length ps)) * 2000)%Z.
Proof.
  cbv zeta.
  rewrite !polls_made_app, !intervals_app, !waited_app.
  rewrite polls_made_rounds, intervals_rounds, waited_rounds.
  change (polls_made [Posted]) with 0. change (intervals [Posted]) with 0.
  change (polls_made [Slept pollInterval; Polled url]) with 1.
  change (intervals [Slept pollInterval; Polled url]) with 1.
  repeat split; try lia.
  unfold pollInterval, waited. simpl. lia.
Qed.

(** The run up to the poll that follows [k] idle replies. *)
Lemma generate_next_poll (net : Endpoints) (taskId : option string) (k : nat) :
  create net = Body (Some taskId) ->
  k < 120 ->
  (forall i, i < k ->
     exists td, task net (taskUrl taskId) i = Body (Some td) /\ keeps_polling td) ->
  exists ps budget,
    length ps = k /\
    generate net =
    poll_from net (taskUrl taskId) (S budget) k ([Posted] ++ rounds (taskUrl taskId) ps).
Proof.
  intros Hcreate Hk Hidle.
  destruct (generate_after_idle net taskId k Hcreate Hk Hidle) as (ps & Hlen & Hrun).
  destruct (maxAttempts - k) as [|budget] eqn:Hb; [unfold maxAttempts in Hb; lia|].
  now exists ps, budget.
Qed.

Ltac after_idle net taskId k Hcreate Hk Hidle :=
  let ps := fresh "ps" in
  let budget := fresh "budget" in
  let Hlen := fresh "Hlen" in
  let Hrun := fresh "Hrun" in
  destruct (generate_next_poll net taskId k Hcreate Hk Hidle) as (ps & budget & Hlen & Hrun);
  rewrite Hrun; cbn [poll_from];
  destruct (measures_after_idle (taskUrl taskId) ps) as (Hp & Hi & Hw);
  rewrite Hlen in Hp, Hi, Hw.

(** X14. When the first [k] replies ([k < 120]) keep the loop going and
    the next one has status [failed], the poller raises "Generation
    failed" right after that poll: [k+1] polls, [k+1] waits of 2000 ms,
    and nothing is asked of the endpoint afterwards. *)
Theorem poller_raises_on_failed_status
    (net : Endpoints) (taskId : option string) (k : nat) (last : TaskData) :
  create net = Body (Some taskId) ->
  k < 120 ->
  (forall i, i < k ->
     exists td, task net (taskUrl taskId) i = Body (Some td) /\ keeps_polling td) ->
  task net (taskUrl taskId) k = Body (Some last) ->
  status last = "failed" ->
  fst (generate net) = Thrown "Generation failed" /\
  polls_made (snd (generate net)) = S k /\
  intervals (snd (generate net)) = S k /\
  waited (snd (generate net)) = (Z.of_nat (S k) * 2000)%Z.
Proof.
  intros Hcreate Hk Hidle Hlast Hst.
  after_idle net taskId k Hcreate Hk Hidle.
  rewrite Hlast, Hst. cbn [String.eqb Ascii.eqb Bool.eqb fst snd].
  rewrite <- app_assoc. auto.
Qed.

Lemma poller_raises_on_failed_status_witness :
  fst (generate (after_two (Body (Some failed_task)))) = Thrown "Generation failed" /\
  polls_made (snd (generate (after_two (Body (Some failed_task))))) = 3 /\
  intervals (snd (generate (after_two (Body (Some failed_task))))) = 3 /\
  waited (snd (generate (after_two (Body (Some failed_task))))) = 6000%Z.
Proof.
  apply (poller_raises_on_failed_status (after_two (Body (Some failed_task)))
           (Some "t1") 2 failed_task).
  - reflexivity.
  - lia.
  - intros i Hi. exists processing. split; [|split; discriminate].
    simpl. destruct (Nat.ltb_spec i 2); [reflexivity | lia].
  - reflexivity.
  - reflexivity.
Defined.

(** X17. A [completed] reply ends the loop whatever its [results]: with an
    empty [results] array the poller returns [undefined] (no error is
    raised), and with [results] missing it raises a TypeError; in both
    cases after [k+1] polls. *)
Theorem poller_completed_without_artifact
    (net : Endpoints) (taskId : option string) (k : nat) (last : TaskData) :
  create net = Body (Some taskId) ->
  k < 120 ->
  (forall i, i < k ->
     exists td, task net (taskUrl taskId) i = Body (Some td) /\ keeps_polling td) ->
  task net (taskUrl taskId) k = Body (Some last) ->
  status last = "completed" ->
  polls_made (snd (generate net)) = S k /\
  (results last = Some [] -> fst (generate net) = Returned None) /\
  (results last = None -> fst (generate net) = Thrown "TypeError").
Proof.
  intros Hcreate Hk Hidle Hlast Hst.
  after_idle net taskId k Hcreate Hk Hidle.
  rewrite Hlast, Hst. cbn [String.eqb Ascii.eqb Bool.eqb fst snd].
  rewrite <- app_assoc. split; [exact Hp|].
  unfold first_result. split; intros ->; reflexivity.
Qed.

Lemma poller_completed_without_artifact_witness :
  fst (generate (after_two (Body (Some completed_empty)))) = Returned None /\
  fst (generate (after_two (Body (Some completed_bare)))) = Thrown "TypeError" /\
  polls_made (snd (generate (after_two (Body (Some completed_empty))))) = 3.
Proof.
  assert (Hidle : forall last i, i < 2 ->
            exists td, task (after_two last) (taskUrl (Some "t1")) i = Body (Some td) /\
                       keeps_polling td).
  { intros last i Hi. exists processing. split; [|split; discriminate].
    simpl. destruct (Nat.ltb_spec i 2); [reflexivity | lia]. }
  destruct (poller_completed_without_artifact (after_two (Body (Some completed_empty)))
              (Some "t1") 2 completed_empty eq_refl) as (Hn & Hempty & _);
    [lia | apply Hidle | reflexivity | reflexivity |].
  destruct (poller_completed_without_artifact (after_two (Body (Some completed_bare)))
              (Some "t1") 2 completed_bare eq_refl) as (_ & _ & Hbare);
    [lia | apply Hidle | reflexivity | reflexivity |].
  split; [apply Hempty; reflexivity|]. split; [apply Hbare; reflexivity | exact Hn].
Defined.

(** X18. A status request that rejects, or whose body has no [data], is
    not retried: the poller raises at once (the rejection's own reason,
    or a TypeError), after [k+1] polls. *)
Theorem poller_does_not_retry_a_broken_poll
    (net : Endpoints) (taskId : option string) (k : nat) :
  create net = Body (Some taskId) ->
  k < 120 ->
  (forall i, i < k ->
     exists td, task net (taskUrl taskId) i = Body (Some td) /\ keeps_polling td) ->
  (forall reason, task net (taskUrl taskId) k = Rejected reason ->
     fst (generate net) = Thrown reason /\ polls_made (snd (generate net)) = S k) /\
  (task net (taskUrl taskId) k = Body None ->
     fst (generate net) = Thrown "TypeError" /\ polls_made (snd (generate net)) = S k).
Proof.
  intros Hcreate Hk Hidle.
  after_idle net taskId k Hcreate Hk Hidle.
  split.
  - intros reason ->. cbn [fst snd]. rewrite <- app_assoc. auto.
  - intros ->. cbn [fst snd]. rewrite <- app_assoc. auto.
Qed.

Lemma poller_does_not_retry_witness :
  fst (generate (after_two (Rejected "network down"))) = Thrown "network down" /\
  polls_made (snd (generate (after_two (Rejected "network down")))) = 3 /\
  fst (generate (after_two (Body None))) = Thrown "TypeError".
Proof.
  assert (Hidle : forall last i, i < 2 ->
            exists td, task (after_two last) (taskUrl (Some "t1")) i = Body (Some td) /\
                       keeps_polling td).
  { intros last i Hi. exists processing. split; [|split; discriminate].
    simpl. destruct (Nat.ltb_spec i 2); [reflexivity | lia]. }
  destruct (poller_does_not_retry_a_broken_poll (after_two (Rejected "network down"))
              (Some "t1") 2 eq_refl) as (Hrej & _); [lia | apply Hidle |].
  destruct (poller_does_not_retry_a_broken_poll (after_two (Body None))
              (Some "t1") 2 eq_refl) as (_ & Hnone); [lia | apply Hidle |].
  destruct (Hrej "network down" eq_refl) as [H1 H2].
  destruct (Hnone eq_refl) as [H3 _].
  auto.
Defined.

(** X16. The status is compared exactly with ["completed"] and
    ["failed"]: any other text, [pending] and [processing] included but
    also a misspelt or differently cased status, keeps the loop going,
    and 120 such replies end in the timeout error. *)
Theorem poller_treats_unknown_status_as_pending
    (net : Endpoints) (taskId : option string) :
  create net = Body (Some taskId) ->
  (forall i, i < 120 ->
     exists td, task net (taskUrl taskId) i = Body (Some td) /\
                status td <> "completed" /\ status td <> "failed") ->
  fst (generate net) = Thrown "Task timeout" /\
  polls_made (snd (generate net)) = 120 /\
  waited (snd (generate net)) = 240000%Z.
Proof.
  intros Hcreate Hidle.
  destruct (poll_from_idle net (taskUrl taskId) maxAttempts 0 0 [Posted])
    as (ps & Hlen & Hrun).
  { intros i Hi. now apply Hidle. }
  unfold generate. rewrite Hcreate.
  rewrite Nat.add_0_r in Hrun. rewrite Hrun. cbn [poll_from fst snd].
  rewrite polls_made_app, waited_app, polls_made_rounds, waited_rounds, Hlen.
  repeat split.
Qed.

Lemma poller_treats_unknown_status_witness :
  fst (generate shouting_net) = Thrown "Task timeout" /\
  polls_made (snd (generate shouting_net)) = 120 /\
  waited (snd (generate shouting_net)) = 240000%Z.
Proof.
  apply (poller_treats_unknown_status_as_pending shouting_net (Some "t1")).
  - reflexivity.
  - intros i _. exists shouting. split; [reflexivity | split; discriminate].
Defined.


(** The snippet does not look at the task id before it polls: a create
    reply without [data.id] is polled under [/task/undefined], and what
    that URL answers is returned. *)
Example poller_polls_undefined_task :
  generate no_id_net =
  (Returned (Some "url1"),
   [Posted; Slept 2000; Polled "/api/ai/evolink/task/undefined"]).
Proof. reflexivity. Qed.


(** Where a returned value comes from. *)
Lemma returned_origin (net : Endpoints) (url : string) :
  forall budget attempt tr v tr',
    poll_from net url budget attempt tr = (Returned v, tr') ->
    exists k td rs,
      attempt <= k < attempt + budget /\
      task net url k = Body (Some td) /\
      status td = "completed" /\
      results td = Some rs /\
      v = rs !! 0 /\
      (forall i, attempt <= i < k ->
         exists td', task net url i = Body (Some td') /\ keeps_polling td').
Proof.
  induction budget as [|budget IH]; intros attempt tr v tr' Hrun.
  - discriminate Hrun.
  - cbn [poll_from] in Hrun.
    destruct (task net url attempt) as [reason|[td|]] eqn:Hreply; try discriminate Hrun.
    destruct (String.eqb (status td) "completed") eqn:Hc.
    + apply String.eqb_eq in Hc. unfold first_result in Hrun.
      destruct (results td) as [rs|] eqn:Hrs; [|discriminate Hrun].
      injection Hrun as <- _.
      exists attempt, td, rs. repeat split; try lia; try assumption.
    + destruct (String.eqb (status td) "failed") eqn:Hf; [discriminate Hrun|].
      apply String.eqb_neq in Hc, Hf.
      destruct (IH _ _ _ _ Hrun) as (k & td' & rs & Hk & Htd' & Hst & Hrs & Hv & Hbefore).
      exists k, td', rs. repeat split; try lia; try assumption.
      intros i Hi. destruct (decide (i = attempt)) as [->|Hne].
      * exists td. repeat split; assumption.
      * apply Hbefore. lia.
Qed.

(** X19. A value the poller returns is never made up: the create reply
    had a [data] member, some poll among the first 120 of the status URL
    built from [data.id] (the URL ending in [undefined] when [data] has no
    [id]) was answered [completed], every poll before it was answered
    with a status other than [completed] and [failed], and the value is
    element 0 of that reply's [results] ([undefined] when the array is
    empty). *)
Theorem poller_result_comes_from_first_completed_reply
    (net : Endpoints) (v : option string) :
  fst (generate net) = Returned v ->
  exists (taskId : option string) k td rs,
    create net = Body (Some taskId) /\
    k < 120 /\
    task net (taskUrl taskId) k = Body (Some td) /\
    status td = "completed" /\
    results td = Some rs /\
    v = rs !! 0 /\
    (forall i, i < k ->
       exists td', task net (taskUrl taskId) i = Body (Some td') /\
                   status td' <> "completed" /\ status td' <> "failed").
Proof.
  unfold generate.
  destruct (create net) as [reason|[taskId|]]; try discriminate.
  destruct (poll_from net (taskUrl taskId) maxAttempts 0 [Posted]) as [out tr'] eqn:Hrun.
  cbn [fst]. intros ->.
  destruct (returned_origin _ _ _ _ _ _ _ Hrun)
    as (k & td & rs & Hk & Htd & Hst & Hrs & Hv & Hbefore).
  exists taskId, k, td, rs. unfold maxAttempts in Hk.
  repeat split; try lia; try assumption.
  intros i Hi. apply Hbefore. lia.
Qed.

Lemma poller_result_origin_witness :
  exists taskId k td rs,
    create t1_net = Body (Some taskId) /\
    k < 120 /\
    task t1_net (taskUrl taskId) k = Body (Some td) /\
    status td = "completed" /\
    results td = Some rs /\
    Some "url1" = rs !! 0 /\
    (forall i, i < k ->
       exists td', task t1_net (taskUrl taskId) i = Body (Some td') /\
                   status td' <> "completed" /\ status td' <> "failed").
Proof.
  apply (poller_result_comes_from_first_completed_reply t1_net (Some "url1")).
  reflexivity.
Defined.

End PollerExtras.

(* --------------------------------------------------------------------- *)
(** ** More on [models/user.ts]                                           *)
(* --------------------------------------------------------------------- *)

Module UserExtras.
Import Types Postgrest UserModel UserSpec UserVocabulary StoreFacts UserProofs.

Lemma filter_none {A} (P : A -> Prop) `{forall x, Decision (P x)} (l : list A) :
  (forall x, x ∈ l -> ~ P x) -> filter P l = [].
Proof.
  induction l as [|x l IH]; intros Hno; [reflexivity|].
  rewrite filter_cons_False by (apply Hno; left).
  apply IH. intros y Hy. apply Hno. now right.
Qed.

Lemma filter_all {A} (P : A -> Prop) `{forall x, Decision (P x)} (l : list A) :
  (forall x, P x) -> filter P l = l.
Proof.
  intros Hall. induction l as [|x l IH]; [reflexivity|].
  rewrite filter_cons_True by apply Hall. now rewrite IH.
Qed.

Lemma findUserByUuid_never_raises (B : Backend) (uuid0 : string) (w : World) :
  exists v w', findUserByUuid B uuid0 w = (Return v, w').
Proof.
  unfold findUserByUuid. run.
  match goal with
  | |- context [single B ?q w] =>
      destruct (single_error_no_data B q w) as (r & w1 & Hr & _); rewrite Hr
  end.
  destruct (error r) as [e|]; [|eexists _, _; reflexivity].
  destruct (negb (String.eqb (code e) "PGRST116")); eexists _, _; reflexivity.
Qed.

(** X1. [findUserByUuid(uuid)] never raises, and it returns a row exactly
    when the read succeeds and one row, no more, carries that uuid; the
    row returned is that row.  In every other case (no such row, several
    of them, a failed read) the result is [null]. *)
Theorem findUserByUuid_returns_the_only_row (B : Backend) (uuid0 : string) (w : World) :
  (exists v w', findUserByUuid B uuid0 w = (Return v, w')) /\
  (forall u,
     fst (findUserByUuid B uuid0 w) = Return (Some u) <->
     outage w = None /\ filter (fun r => uuid r = Some uuid0) (users w) = [u]) /\
  (forall u,
     fst (findUserByUuid B uuid0 w) = Return (Some u) -> uuid u = Some uuid0 /\ u ∈ users w) /\
  (fst (findUserByUuid B uuid0 w) = Return None \/
   exists u, fst (findUserByUuid B uuid0 w) = Return (Some u)).
Proof.
  assert (Hiff : forall u,
     fst (findUserByUuid B uuid0 w) = Return (Some u) <->
     outage w = None /\ filter (fun r => uuid r = Some uuid0) (users w) = [u]).
  { intros u. destruct (outage w) as [e|] eqn:Ho.
    - rewrite (findUserByUuid_down B uuid0 w e Ho). split; [discriminate | intros [[=] _]].
    - rewrite (findUserByUuid_up B uuid0 w Ho).
      destruct (filter (fun r => uuid r = Some uuid0) (users w)) as [|a [|b l]].
      + split; [discriminate | intros [_ [=]]].
      + split; [intros [= ->]; now split | intros [_ [= ->]]; reflexivity].
      + split; [discriminate | intros [_ [=]]]. }
  split; [apply findUserByUuid_never_raises|]. split; [exact Hiff|]. split.
  - intros u Hu. apply Hiff in Hu as [_ Hone].
    assert (Hin : u ∈ filter (fun r => uuid r = Some uuid0) (users w))
      by (rewrite Hone; left).
    apply list_elem_of_filter in Hin. exact Hin.
  - destruct (outage w) as [e|] eqn:Ho.
    + left. apply (findUserByUuid_down B uuid0 w e Ho).
    + rewrite (findUserByUuid_up B uuid0 w Ho).
      destruct (filter (fun r => uuid r = Some uuid0) (users w)) as [|a [|b l]];
        [left | right; eexists | left]; reflexivity.
Qed.

Lemma filter_applied_sound (email0 : string) (provider : option string) (u : User) :
  filter_applied email0 provider u = true ->
  email u = email0 /\
  (forall c p, provider = Some (String c p) -> signin_provider u = Some (String c p)).
Proof.
  unfold filter_applied, provider_is. intros H.
  apply andb_true_iff in H as [He Hp]. apply String.eqb_eq in He.
  split; [exact He|]. intros c p ->.
  destruct (signin_provider u) as [x|]; [|discriminate Hp].
  apply String.eqb_eq in Hp. now subst.
Qed.

(** X12. A row that [findUserByEmail] returns is a row of the table with
    the email asked for and, when a non-empty provider was given, with
    that provider; and it is the only row of the table of which this is
    true. *)
Theorem findUserByEmail_returns_a_matching_row
    (B : Backend) (email0 : string) (provider : option string) (w : World) (u : User) :
  fst (findUserByEmail B email0 provider w) = Return (Some u) ->
  u ∈ users w /\
  email u = email0 /\
  (forall c p, provider = Some (String c p) -> signin_provider u = Some (String c p)) /\
  (forall r, r ∈ users w -> filter_applied email0 provider r = true -> r = u).
Proof.
  intros Hrun.
  destruct (outage w) as [e|] eqn:Ho.
  { rewrite (findUserByEmail_down B email0 provider w e Ho) in Hrun. discriminate Hrun. }
  rewrite (findUserByEmail_up B email0 provider w Ho) in Hrun.
  destruct (filter (fun r => filter_applied email0 provider r = true) (users w))
    as [|a [|b l]] eqn:Hpass; try discriminate Hrun.
  injection Hrun as ->.
  assert (Hin : u ∈ filter (fun r => filter_applied email0 provider r = true) (users w))
    by (rewrite Hpass; left).
  apply list_elem_of_filter in Hin as [Hu Hin].
  destruct (filter_applied_sound _ _ _ Hu) as [He Hp].
  split; [exact Hin|]. split; [exact He|]. split; [exact Hp|].
  intros r Hr Hpasses.
  assert (Hr' : r ∈ filter (fun r => filter_applied email0 provider r = true) (users w))
    by (apply list_elem_of_filter; now split).
  rewrite Hpass in Hr'. now apply list_elem_of_singleton in Hr'.
Qed.

Lemma findUserByEmail_returns_a_matching_row_witness :
  anna_google ∈ users (up [anna_plain; anna_google]) /\
  email anna_google = "a@x.io" /\
  (forall c p, Some "google" = Some (String c p) ->
     signin_provider anna_google = Some (String c p)) /\
  (forall r, r ∈ users (up [anna_plain; anna_google]) ->
     filter_applied "a@x.io" (Some "google") r = true -> r = anna_google).
Proof.
  apply (findUserByEmail_returns_a_matching_row demo "a@x.io" (Some "google")
           (up [anna_plain; anna_google]) anna_google).
  reflexivity.
Defined.

(** *** Writing, then reading *)

Lemma insertUser_accepted (B : Backend) (user : User) (w : World) :
  let stored := generated B (users w) user in
  let request := from "users" |> insert [user] |> select "*" in
  outage w = None ->
  violation B (users w) (users w ++ [stored]) = None ->
  insertUser B user w =
  (Return (Some stored), with_users (users w ++ [stored]) (record_request request true w)).
Proof.
  intros stored request Ho Hv. unfold insertUser. run.
  unfold single. simpl. rewrite Ho. unfold execute. simpl.
  fold stored. rewrite Hv. reflexivity.
Qed.

Lemma insertUser_refused (B : Backend) (user : User) (w : World) (e : PostgrestError) :
  let stored := generated B (users w) user in
  outage w = None ->
  violation B (users w) (users w ++ [stored]) = Some e ->
  users (snd (insertUser B user w)) = users w /\
  outage (snd (insertUser B user w)) = None.
Proof.
  intros stored Ho Hv. unfold insertUser. run.
  unfold single. simpl. rewrite Ho. unfold execute. simpl.
  fold stored. rewrite Hv. simpl. now split.
Qed.

(** X2. Insert, then look up.  When the store accepts the insert and no
    row carried the new row's uuid before, [findUserByUuid] on that uuid
    returns the row as stored.  When a row did carry that uuid and the
    store accepted the insert all the same, the lookup now returns
    [null]: the uuid has become ambiguous. *)
Theorem insertUser_then_findUserByUuid
    (B : Backend) (user : User) (w : World) (uuid0 : string) :
  let stored := generated B (users w) user in
  outage w = None ->
  violation B (users w) (users w ++ [stored]) = None ->
  uuid stored = Some uuid0 ->
  ((forall r, r ∈ users w -> uuid r <> Some uuid0) ->
   fst (findUserByUuid B uuid0 (snd (insertUser B user w))) = Return (Some stored)) /\
  ((exists r, r ∈ users w /\ uuid r = Some uuid0) ->
   fst (findUserByUuid B uuid0 (snd (insertUser B user w))) = Return None).
Proof.
  intros stored Ho Hv Hu.
  rewrite (insertUser_accepted B user w Ho Hv). cbn [snd]. fold stored.
  rewrite findUserByUuid_up by exact Ho.
  cbn [users with_users]. rewrite filter_app.
  rewrite (filter_cons_True _ stored []) by exact Hu. rewrite filter_nil.
  split.
  - intros Hfresh. rewrite (filter_none _ (users w) Hfresh). reflexivity.
  - intros (r & Hr & Hru).
    assert (Hin : r ∈ filter (fun r => uuid r = Some uuid0) (users w))
      by (apply list_elem_of_filter; now split).
    destruct (filter (fun r => uuid r = Some uuid0) (users w)) as [|a [|b l]];
      [inversion Hin | reflexivity | reflexivity].
Qed.

Lemma insertUser_then_findUserByUuid_witness :
  fst (findUserByUuid demo "u3" (snd (insertUser demo carol (up [alice; bob])))) =
    Return (Some (row 3 "u3" "c@x.io" "google" "2024-01-02T08:00:00Z")) /\
  fst (findUserByUuid strict "u2" (snd (insertUser strict bob_again (up [alice; bob])))) =
    Return None.
Proof.
  destruct (insertUser_then_findUserByUuid demo carol (up [alice; bob]) "u3")
    as [Hfresh _]; [reflexivity | reflexivity | reflexivity |].
  destruct (insertUser_then_findUserByUuid strict bob_again (up [alice; bob]) "u2")
    as [_ Htaken]; [reflexivity | reflexivity | reflexivity |].
  split.
  - apply Hfresh. intros r Hr.
    apply list_elem_of_In in Hr. simpl in Hr.
    destruct Hr as [<-|[<-|[]]]; discriminate.
  - apply Htaken. exists bob. split; [right; left | reflexivity].
Defined.

Lemma merge_uuid (u : User) (p : Partial.PartialUser) :
  uuid (Partial.merge u p) = Partial.over_opt (Partial.uuid p) (uuid u).
Proof. reflexivity. Qed.

Lemma merge_without_fields (u : User) (p : Partial.PartialUser) :
  Partial.has_fields p = false -> Partial.merge u p = u.
Proof.
  intros Hno. unfold Partial.has_fields in Hno.
  repeat (apply orb_false_iff in Hno as [Hno ?]).
  destruct p; cbn in *.
  repeat match goal with
         | H : Partial.is_Some_b ?o = false |- _ =>
             destruct o; [discriminate H | clear H]
         end.
  now destruct u.
Qed.

Lemma updated_table_lookup (uuid0 : string) (updates : Partial.PartialUser) (tbl : list User) :
  length (updated_table uuid0 updates tbl) = length tbl /\
  (forall i r, tbl !! i = Some r -> uuid r <> Some uuid0 ->
     updated_table uuid0 updates tbl !! i = Some r).
Proof.
  unfold updated_table. split; [apply length_map|].
  induction tbl as [|a tbl IH]; intros i r Hi Hr; [discriminate Hi|].
  destruct i as [|i]; simpl in *.
  - injection Hi as ->. now rewrite bool_decide_eq_false_2.
  - now apply IH.
Qed.

Lemma updated_table_keeps_uuid (uuid0 : string) (updates : Partial.PartialUser)
    (tbl : list User) :
  Partial.uuid updates = None ->
  filter (fun r => uuid r = Some uuid0) (updated_table uuid0 updates tbl) =
  map (fun r => Partial.merge r updates) (filter (fun r => uuid r = Some uuid0) tbl).
Proof.
  intros Hnone. unfold updated_table.
  induction tbl as [|a tbl IH]; [reflexivity|].
  cbn [map]. rewrite !filter_cons, IH.
  destruct (decide (uuid a = Some uuid0)) as [Ha|Ha].
  - rewrite bool_decide_eq_true_2 by exact Ha.
    rewrite merge_uuid, Hnone. cbn [Partial.over_opt].
    destruct (decide (uuid a = Some uuid0)); [reflexivity | contradiction].
  - rewrite bool_decide_eq_false_2 by exact Ha.
    destruct (decide (uuid a = Some uuid0)); [contradiction | reflexivity].
Qed.

Lemma updated_table_moves_uuid (uuid0 uuid1 : string) (updates : Partial.PartialUser)
    (tbl : list User) :
  Partial.uuid updates = Some uuid1 -> uuid1 <> uuid0 ->
  filter (fun r => uuid r = Some uuid0) (updated_table uuid0 updates tbl) = [].
Proof.
  intros Hsome Hne. apply filter_none. intros r Hr.
  unfold updated_table in Hr. apply list_elem_of_In, in_map_iff in Hr as (a & <- & _).
  destruct (bool_decide (uuid a = Some uuid0)) eqn:Ha.
  - rewrite merge_uuid, Hsome. cbn [Partial.over_opt]. congruence.
  - now apply bool_decide_eq_false in Ha.
Qed.

Lemma updateUser_accepted (B : Backend) (uuid0 : string) (updates : Partial.PartialUser)
    (w : World) (u : User) :
  let request := from "users" |> update updates |> eq "uuid" uuid0 |> select "*" in
  outage w = None ->
  takes_effect B updates = true ->
  filter (fun r => uuid r = Some uuid0) (users w) = [u] ->
  violation B (users w) (updated_table uuid0 updates (users w)) = None ->
  updateUser B uuid0 updates w =
  (Return (Some (Partial.merge u updates)),
   with_users (updated_table uuid0 updates (users w)) (record_request request true w)).
Proof.
  intros request Ho He Hu Hv. unfold updateUser. run.
  rewrite (single_update B uuid0 updates w Ho). rewrite He, Hv, Hu. reflexivity.
Qed.

(** An update without fields, sent to a store that answers those with no
    rows, leaves everything as it was. *)
Lemma updateUser_without_effect (B : Backend) (uuid0 : string)
    (updates : Partial.PartialUser) (w : World) :
  outage w = None ->
  takes_effect B updates = false ->
  users (snd (updateUser B uuid0 updates w)) = users w /\
  outage (snd (updateUser B uuid0 updates w)) = None /\
  Partial.has_fields updates = false.
Proof.
  intros Ho He. unfold updateUser. run.
  rewrite (single_update B uuid0 updates w Ho), He. cbn.
  repeat split; [exact Ho|].
  unfold takes_effect in He. now apply orb_false_iff in He as [He _].
Qed.

(** The table after a call of [updateUser]: as it was, or with the update
    applied. *)
Lemma updateUser_table (B : Backend) (uuid0 : string) (updates : Partial.PartialUser)
    (w : World) :
  users (snd (updateUser B uuid0 updates w)) = users w \/
  users (snd (updateUser B uuid0 updates w)) = updated_table uuid0 updates (users w).
Proof.
  unfold updateUser. run.
  destruct (outage w) as [e|] eqn:Ho.
  - rewrite (single_down B _ _ _ Ho). now left.
  - rewrite (single_update B uuid0 updates w Ho).
    destruct (takes_effect B updates); [|now left].
    destruct (violation B (users w) (updated_table uuid0 updates (users w))); [now left|].
    destruct (filter (fun r => uuid r = Some uuid0) (users w)) as [|u [|v l]];
      [now left | now right | now left].
Qed.

(** X3. Update, then look up.  After [updateUser] has updated the one row
    with a uuid, [findUserByUuid] on that uuid returns the updated row,
    provided the update did not carry a [uuid] field; when the update
    gave the row another uuid, the lookup under the old uuid returns
    [null]. *)
Theorem updateUser_then_findUserByUuid
    (B : Backend) (uuid0 : string) (updates : Partial.PartialUser) (w : World) (u : User) :
  outage w = None ->
  filter (fun r => uuid r = Some uuid0) (users w) = [u] ->
  violation B (users w) (updated_table uuid0 updates (users w)) = None ->
  (Partial.uuid updates = None ->
   fst (findUserByUuid B uuid0 (snd (updateUser B uuid0 updates w))) =
   Return (Some (Partial.merge u updates))) /\
  (forall uuid1, Partial.uuid updates = Some uuid1 -> uuid1 <> uuid0 ->
   fst (findUserByUuid B uuid0 (snd (updateUser B uuid0 updates w))) = Return None).
Proof.
  intros Ho Hu Hv.
  destruct (takes_effect B updates) eqn:He.
  - rewrite (updateUser_accepted B uuid0 updates w u Ho He Hu Hv). cbn [snd].
    rewrite findUserByUuid_up by exact Ho. cbn [users with_users].
    split.
    + intros Hnone. rewrite (updated_table_keeps_uuid _ _ _ Hnone), Hu. reflexivity.
    + intros uuid1 Hsome Hne.
      now rewrite (updated_table_moves_uuid uuid0 uuid1 updates _ Hsome Hne).
  - destruct (updateUser_without_effect B uuid0 updates w Ho He) as (Hsame & Ho' & Hno).
    rewrite findUserByUuid_up by exact Ho'. rewrite Hsame, Hu.
    split.
    + intros _. now rewrite (merge_without_fields u updates Hno).
    + intros uuid1 Hsome _. unfold Partial.has_fields in Hno.
      repeat (apply orb_false_iff in Hno as [Hno ?]).
      rewrite Hsome in *.
      match goal with H : Partial.is_Some_b (Some _) = false |- _ => discriminate H end.
Qed.

Lemma updateUser_then_findUserByUuid_witness :
  fst (findUserByUuid demo "u2"
         (snd (updateUser demo "u2" (rename_to "bobby") (up [alice; bob])))) =
    Return (Some (Partial.merge bob (rename_to "bobby"))) /\
  fst (findUserByUuid demo "u2"
         (snd (updateUser demo "u2" (reassign_uuid "u8") (up [alice; bob])))) =
    Return None.
Proof.
  destruct (updateUser_then_findUserByUuid demo "u2" (rename_to "bobby")
              (up [alice; bob]) bob) as [Hkept _]; [reflexivity | reflexivity | reflexivity |].
  destruct (updateUser_then_findUserByUuid demo "u2" (reassign_uuid "u8")
              (up [alice; bob]) bob) as [_ Hmoved]; [reflexivity | reflexivity | reflexivity |].
  split.
  - apply Hkept. reflexivity.
  - apply (Hmoved "u8"); [reflexivity | discriminate].
Defined.

(** X4. Whatever its outcome, [updateUser(uuid, updates)] neither adds nor
    removes a row, and it leaves every row that carries another uuid (or
    none) exactly as it was, at the place where it was. *)
Theorem updateUser_touches_only_that_uuid
    (B : Backend) (uuid0 : string) (updates : Partial.PartialUser) (w : World) :
  length (users (snd (updateUser B uuid0 updates w))) = length (users w) /\
  (forall i r, users w !! i = Some r -> uuid r <> Some uuid0 ->
     users (snd (updateUser B uuid0 updates w)) !! i = Some r).
Proof.
  destruct (updateUser_table B uuid0 updates w) as [-> | ->].
  - split; [reflexivity | tauto].
  - apply updated_table_lookup.
Qed.

(** *** Counting the rows *)

Lemma fetch_everything (B : Backend) (q : Query) (tbl : list User) :
  filters q = [] -> ordering q = None -> window q = None -> fetch B q tbl = tbl.
Proof.
  intros Hf Ho Hw. rewrite (fetch_plain B q tbl Ho Hw).
  apply filter_all. intros u. unfold qualifies. now rewrite Hf.
Qed.

Lemma getUsersTotal_up (B : Backend) (w : World) :
  outage w = None -> fst (getUsersTotal B w) = Return (Some (length (users w))).
Proof.
  intros Ho. unfold getUsersTotal. run.
  rewrite (await_read B (from "users" |> select "id") "id" w Ho eq_refl eq_refl eq_refl).
  cbn [error ok data fst].
  now rewrite (fetch_everything B (from "users" |> select "id") _ eq_refl eq_refl eq_refl).
Qed.

(** X5. With the store reachable, [getUsersTotal()] is the number of rows
    of the table; after an [insertUser] the store accepted it is one
    more, and after an [insertUser] the store refused it is unchanged. *)
Theorem getUsersTotal_after_insertUser (B : Backend) (user : User) (w : World) :
  let stored := generated B (users w) user in
  outage w = None ->
  fst (getUsersTotal B w) = Return (Some (length (users w))) /\
  (violation B (users w) (users w ++ [stored]) = None ->
   fst (getUsersTotal B (snd (insertUser B user w))) = Return (Some (S (length (users w))))) /\
  (forall e, violation B (users w) (users w ++ [stored]) = Some e ->
   fst (getUsersTotal B (snd (insertUser B user w))) = Return (Some (length (users w)))).
Proof.
  intros stored Ho. split; [now apply getUsersTotal_up|]. split.
  - intros Hv. rewrite (insertUser_accepted B user w Ho Hv). cbn [snd].
    rewrite getUsersTotal_up by exact Ho. cbn [users with_users].
    rewrite length_app. simpl. do 2 f_equal. lia.
  - intros e Hv. destruct (insertUser_refused B user w e Ho Hv) as [Hu Ho'].
    rewrite getUsersTotal_up by exact Ho'. now rewrite Hu.
Qed.

Lemma getUsersTotal_after_insertUser_witness :
  fst (getUsersTotal demo (up [alice; bob])) = Return (Some 2) /\
  fst (getUsersTotal demo (snd (insertUser demo carol (up [alice; bob])))) = Return (Some 3) /\
  fst (getUsersTotal demo (snd (insertUser demo alice (up [alice; bob])))) = Return (Some 2).
Proof.
  destruct (getUsersTotal_after_insertUser demo carol (up [alice; bob]) eq_refl)
    as (Hnow & Hmore & _).
  destruct (getUsersTotal_after_insertUser demo alice (up [alice; bob]) eq_refl)
    as (_ & _ & Hsame).
  split; [exact Hnow|]. split.
  - apply Hmore. reflexivity.
  - apply (Hsame duplicate_key). reflexivity.
Defined.

(** *** Reads do not write *)

Lemma only_read_refl (w : World) : only_read w w.
Proof.
  repeat split. exists []. rewrite app_nil_r. repeat split; [simpl; lia | constructor].
Qed.

Lemma execute_read_table (B : Backend) (q : Query) (columns : string) (tbl : list User) :
  verb q = Some (Read columns) ->
  forall out tbl', execute B q tbl = inr (out, tbl') -> tbl' = tbl.
Proof.
  intros Hv out tbl'. unfold execute. rewrite Hv.
  destruct (negb (String.eqb (table q) "users")); [discriminate|].
  destruct (window_ok q); [|discriminate].
  now intros [= _ <-].
Qed.

Lemma await_only_reads (B : Backend) (q : Query) (columns : string) (w : World) :
  verb q = Some (Read columns) -> only_read w (snd (await B q w)).
Proof.
  intros Hv.
  assert (Hextra : exists extra, sent w ++ [(q, false)] = sent w ++ extra /\
                                 length extra <= 1 /\ Forall is_read extra).
  { exists [(q, false)]. repeat split; [simpl; lia|].
    constructor; [now exists columns | constructor]. }
  unfold await. simpl.
  destruct (outage w) as [e|]; [now repeat split|].
  destruct (execute B q (users w)) as [e|[out tbl']] eqn:Hx; [now repeat split|].
  apply (execute_read_table B q columns _ Hv) in Hx as ->.
  now repeat split.
Qed.

Lemma single_only_reads (B : Backend) (q : Query) (columns : string) (w : World) :
  verb q = Some (Read columns) -> only_read w (snd (single B q w)).
Proof.
  intros Hv.
  assert (Hextra : exists extra, sent w ++ [(q, true)] = sent w ++ extra /\
                                 length extra <= 1 /\ Forall is_read extra).
  { exists [(q, true)]. repeat split; [simpl; lia|].
    constructor; [now exists columns | constructor]. }
  unfold single. simpl.
  destruct (outage w) as [e|]; [now repeat split|].
  destruct (execute B q (users w)) as [e|[out tbl']] eqn:Hx; [now repeat split|].
  apply (execute_read_table B q columns _ Hv) in Hx as ->.
  destruct out as [[|u [|v l]]|]; now repeat split.
Qed.

Ltac settle_read :=
  match goal with
  | |- context [await ?B ?q ?w] =>
      let H := fresh "Hread" in
      let r := fresh "r" in
      let w1 := fresh "w1" in
      assert (H : only_read w (snd (await B q w)))
        by (eapply await_only_reads; reflexivity);
      destruct (await B q w) as [[r|?] w1]
  | |- context [single ?B ?q ?w] =>
      let H := fresh "Hread" in
      let r := fresh "r" in
      let w1 := fresh "w1" in
      assert (H : only_read w (snd (single B q w)))
        by (eapply single_only_reads; reflexivity);
      destruct (single B q w) as [[r|?] w1]
  end.

(** X6. The six lookup and listing functions never write: after any of
    them the [users] table is what it was, and at most one request was
    sent to the store, a read. *)
Theorem lookups_never_write (B : Backend) (w : World) :
  (forall email0 provider, only_read w (snd (findUserByEmail B email0 provider w))) /\
  (forall uuid0, only_read w (snd (findUserByUuid B uuid0 w))) /\
  only_read w (snd (getUsersTotal B w)) /\
  (forall startTime, only_read w (snd (getUserCountByDate B startTime w))) /\
  (forall page limit, only_read w (snd (getUsers B page limit w))) /\
  (forall uuids, only_read w (snd (getUsersByUuids B uuids w))).
Proof.
  split; [|split; [|split; [|split; [|split]]]].
  - intros email0 provider. unfold findUserByEmail. run.
    destruct provider as [[|c p]|]; settle_read; try exact Hread;
      (destruct (error r) as [e|]; [|exact Hread]);
      destruct (negb (String.eqb (code e) "PGRST116")); exact Hread.
  - intros uuid0. unfold findUserByUuid. run. settle_read; [|exact Hread].
    destruct (error r) as [e|]; [|exact Hread].
    destruct (negb (String.eqb (code e) "PGRST116")); exact Hread.
  - unfold getUsersTotal. run. settle_read; [|exact Hread].
    destruct (error r); exact Hread.
  - intros startTime. unfold getUserCountByDate. run. settle_read; [|exact Hread].
    destruct (error r); [exact Hread|].
    destruct (data r) as [items|]; [|exact Hread].
    destruct (forEach items ∅); exact Hread.
  - intros page limit. unfold getUsers. run. settle_read; [|exact Hread].
    destruct (error r); exact Hread.
  - intros uuids. unfold getUsersByUuids.
    destruct (nothing_asked uuids); [apply only_read_refl|].
    run. settle_read; [|exact Hread].
    destruct (error r); exact Hread.
Qed.

(** *** What is logged *)

(** X7. A lookup that finds no row is not logged as an error, one that
    finds its row is not logged either, and a failed read leaves exactly
    one [console.error] line carrying the error, unless the error bears
    the code PGRST116, which is taken for "no rows" and passed over in
    silence. *)
Theorem lookups_log_failures_but_not_absence (B : Backend) (w : World) :
  (forall uuid0,
     (forall e, outage w = Some e ->
        console (snd (findUserByUuid B uuid0 w)) = logged w "Error finding user by uuid:" e) /\
     (outage w = None ->
        length (filter (fun r => uuid r = Some uuid0) (users w)) <= 1 ->
        console (snd (findUserByUuid B uuid0 w)) = console w)) /\
  (forall email0 provider,
     (forall e, outage w = Some e ->
        console (snd (findUserByEmail B email0 provider w)) =
        logged w "Error finding user by email:" e) /\
     (outage w = None ->
        length (filter (fun r => filter_applied email0 provider r = true) (users w)) <= 1 ->
        console (snd (findUserByEmail B email0 provider w)) = console w)).
Proof.
  split.
  - intros uuid0. split.
    + intros e Ho. unfold findUserByUuid, logged. run.
      rewrite (single_down B _ _ _ Ho). cbn [error failed].
      destruct (String.eqb (code e) "PGRST116"); reflexivity.
    + intros Ho Hle. unfold findUserByUuid. run.
      rewrite (single_read B (from "users" |> select "*" |> eq "uuid" uuid0) "*" w Ho
                 eq_refl eq_refl eq_refl).
      rewrite (fetch_plain B (from "users" |> select "*" |> eq "uuid" uuid0) _
                 eq_refl eq_refl).
      rewrite (list_filter_iff
                 (fun u => qualifies B (from "users" |> select "*" |> eq "uuid" uuid0) u = true)
                 (fun u => uuid u = Some uuid0)).
      2:{ intros u.
          rewrite (qualifies_eq_uuid B (from "users" |> select "*" |> eq "uuid" uuid0)
                     uuid0 u eq_refl).
          apply bool_decide_eq_true. }
      destruct (filter (fun r => uuid r = Some uuid0) (users w)) as [|a [|b l]];
        [reflexivity | reflexivity | simpl in Hle; lia].
  - intros email0 provider. split.
    + intros e Ho. unfold findUserByEmail, logged. run.
      rewrite (single_down B _ _ _ Ho). cbn [error failed].
      destruct (String.eqb (code e) "PGRST116"); reflexivity.
    + intros Ho Hle. unfold findUserByEmail. run.
      change (match provider with
              | Some (String c p) =>
                  from "users" |> select "*" |> eq "email" email0
                    |> eq "signin_provider" (String c p)
              | _ => from "users" |> select "*" |> eq "email" email0
              end) with (email_query email0 provider).
      destruct (email_query_shape email0 provider) as (Ht & Hv & Hord & Hwin).
      rewrite (single_read B _ "*" w Ho Ht Hv (window_ok_unwindowed _ Hwin)).
      rewrite (fetch_plain B _ _ Hord Hwin).
      rewrite (list_filter_iff (fun u => qualifies B (email_query email0 provider) u = true)
                 (fun u => filter_applied email0 provider u = true)).
      2:{ intros u. now rewrite qualifies_email_query. }
      destruct (filter (fun r => filter_applied email0 provider r = true) (users w))
        as [|a [|b l]]; [reflexivity | reflexivity | simpl in Hle; lia].
Qed.

(** *** Grouping by date, in general *)

Lemma first_piece_before (sep : ascii) (s : string) :
  first_piece (split sep s) = before sep s.
Proof.
  induction s as [|c s IH]; [reflexivity|].
  cbn [split before]. destruct (Ascii.eqb c sep); [reflexivity|].
  destruct (split sep s) as [|piece pieces] eqn:Hs.
  - now elim (split_nonempty sep s).
  - unfold first_piece in *. cbn in *. now rewrite IH.
Qed.

Lemma date_key_before (u : User) : date_key u = before "T" <$> created_at u.
Proof.
  unfold date_key. destruct (created_at u); [|reflexivity].
  simpl. now rewrite first_piece_before.
Qed.

(** A row passes [gte("created_at", ...)] only if it has a [created_at]. *)
Lemma created_since_stamped (B : Backend) (startTime : string) (tbl : list User) :
  Forall (fun u => is_Some (created_at u)) (created_since B startTime tbl).
Proof.
  apply Forall_forall. intros u Hu. unfold created_since in Hu.
  apply list_elem_of_filter in Hu as [Hu _].
  cbn [holds] in Hu. rewrite column_created_at in Hu.
  destruct (created_at u); [now eexists | discriminate Hu].
Qed.

(** The map [getUserCountByDate] builds when the read succeeds. *)
Lemma getUserCountByDate_map (B : Backend) (startTime : string) (w : World) :
  outage w = None ->
  exists m,
    fst (getUserCountByDate B startTime w) = Return (Some m) /\
    forall d, m !! d = count_of (occurrences d (created_since B startTime (users w))).
Proof.
  intros Ho.
  pose proof (fetch_since_perm B startTime (users w)) as Hperm.
  rewrite (getUserCountByDate_up B startTime w Ho).
  destruct (forEach_returns (fetch B (since_query startTime) (users w)))
    with (m := ∅ : gmap string nat) as [m Hm].
  { rewrite Hperm. apply created_since_stamped. }
  exists m. rewrite Hm. split; [reflexivity|].
  destruct (forEach_counts _ _ _ Hm) as (Hpos & Hcount & _).
  { intros d. now rewrite lookup_empty. }
  intros d. specialize (Hcount d). specialize (Hpos d).
  rewrite lookup_empty in Hcount. cbn [or_zero] in Hcount.
  rewrite (occurrences_perm d _ _ Hperm), Nat.add_0_l in Hcount.
  destruct (m !! d) as [[|c]|]; cbn [or_zero] in Hcount.
  - congruence.
  - now rewrite <- Hcount.
  - now rewrite <- Hcount.
Qed.

(** X8. [getUserCountByDate] never raises, whatever the [created_at]
    texts look like.  When the read succeeds it returns the map that
    files every row created at or after [startTime] under the text of its
    [created_at] in front of the first ["T"] (under the whole text when
    it has no ["T"]) and counts the rows under each key; when the read
    fails it returns [undefined]. *)
Theorem getUserCountByDate_keys_are_text_before_T
    (B : Backend) (startTime : string) (w : World) :
  (exists v w', getUserCountByDate B startTime w = (Return v, w')) /\
  (forall e, outage w = Some e -> fst (getUserCountByDate B startTime w) = Return None) /\
  (outage w = None ->
   exists m,
     fst (getUserCountByDate B startTime w) = Return (Some m) /\
     forall d,
       m !! d =
       count_of (length (filter (fun u => before "T" <$> created_at u = Some d)
                                (created_since B startTime (users w))))).
Proof.
  split; [|split].
  - destruct (outage w) as [e|] eqn:Ho.
    + pose proof (getUserCountByDate_down B startTime w e Ho) as Hd.
      destruct (getUserCountByDate B startTime w) as [out w']. cbn in Hd. subst out.
      now eexists _, _.
    + destruct (getUserCountByDate_map B startTime w Ho) as (m & Hm & _).
      destruct (getUserCountByDate B startTime w) as [out w']. cbn in Hm. subst out.
      now eexists _, _.
  - intros e Ho. apply (getUserCountByDate_down B startTime w e Ho).
  - intros Ho. destruct (getUserCountByDate_map B startTime w Ho) as (m & Hm & Hcount).
    exists m. split; [exact Hm|]. intros d. rewrite Hcount. f_equal.
    unfold occurrences. f_equal. apply list_filter_iff. intros u.
    now rewrite date_key_before.
Qed.

(** X9. The counts do not depend on the order of the rows: two reachable
    stores whose tables hold the same rows, in whatever order, give the
    same map. *)
Theorem getUserCountByDate_ignores_row_order
    (B : Backend) (startTime : string) (w1 w2 : World) :
  outage w1 = None -> outage w2 = None ->
  users w1 ≡ₚ users w2 ->
  fst (getUserCountByDate B startTime w1) = fst (getUserCountByDate B startTime w2).
Proof.
  intros Ho1 Ho2 Hperm.
  destruct (getUserCountByDate_map B startTime w1 Ho1) as (m1 & -> & H1).
  destruct (getUserCountByDate_map B startTime w2 Ho2) as (m2 & -> & H2).
  do 2 f_equal. apply map_eq. intros d. rewrite H1, H2. f_equal.
  apply occurrences_perm. unfold created_since. now rewrite Hperm.
Qed.

Lemma getUserCountByDate_ignores_row_order_witness :
  fst (getUserCountByDate demo "2024-01-01T00:00:00Z" (up [alice; bob; carol])) =
  fst (getUserCountByDate demo "2024-01-01T00:00:00Z" (up [carol; alice; bob])).
Proof.
  apply (getUserCountByDate_ignores_row_order demo "2024-01-01T00:00:00Z"
           (up [alice; bob; carol]) (up [carol; alice; bob])).
  - reflexivity.
  - reflexivity.
  - simpl. symmetry. apply (Permutation_cons_append [alice; bob] carol).
Defined.

(** *** Asking for several uuids *)

Lemma getUsersByUuids_rows (B : Backend) (w : World) (x : string) (uuids : list string) :
  fst (getUsersByUuids B (Some (x :: uuids)) w) =
  Return (Some (match outage w with
                | None => filter (fun u => uuid_in (x :: uuids) u = true) (users w)
                | Some _ => []
                end)).
Proof.
  unfold getUsersByUuids.
  change (nothing_asked (Some (x :: uuids))) with false. cbv iota.
  change (default [] (Some (x :: uuids))) with (x :: uuids). run.
  destruct (outage w) as [e|] eqn:Ho.
  - rewrite (await_down B _ _ _ Ho). reflexivity.
  - rewrite (await_read B (from "users" |> select "*" |> in_ "uuid" (x :: uuids)) "*" w Ho
               eq_refl eq_refl eq_refl).
    cbn [error ok data fst].
    rewrite fetch_plain by reflexivity.
    do 2 f_equal. apply list_filter_iff. intros u.
    now rewrite (qualifies_in_uuid B (from "users" |> select "*" |> in_ "uuid" (x :: uuids))
                   (x :: uuids) u eq_refl).
Qed.

Lemma uuid_in_same (l1 l2 : list string) (u : User) :
  (forall x, x ∈ l1 <-> x ∈ l2) -> uuid_in l1 u = uuid_in l2 u.
Proof.
  intros Hsame. unfold uuid_in. destruct (uuid u) as [x|]; [|reflexivity].
  apply bool_decide_ext, Hsame.
Qed.

(** X10. Only the set of uuids asked for matters to [getUsersByUuids]:
    two non-empty sequences with the same elements, in any order and with
    any repetitions, give the same result.  The rows returned keep the
    order of the table, each row at most as often as the table holds it,
    and each carries one of the uuids asked for. *)
Theorem getUsersByUuids_depends_on_the_set_only
    (B : Backend) (w : World) (l1 l2 : list string) :
  l1 <> [] -> l2 <> [] ->
  (forall x, x ∈ l1 <-> x ∈ l2) ->
  fst (getUsersByUuids B (Some l1) w) = fst (getUsersByUuids B (Some l2) w) /\
  exists rows,
    fst (getUsersByUuids B (Some l1) w) = Return (Some rows) /\
    rows `sublist_of` users w /\
    (forall r, r ∈ rows -> exists x, uuid r = Some x /\ x ∈ l1).
Proof.
  intros H1 H2 Hsame.
  destruct l1 as [|x1 l1]; [contradiction|]. destruct l2 as [|x2 l2]; [contradiction|].
  rewrite !getUsersByUuids_rows. split.
  - destruct (outage w); [reflexivity|].
    do 2 f_equal. apply list_filter_iff. intros u.
    now rewrite (uuid_in_same _ _ u Hsame).
  - eexists. split; [reflexivity|]. destruct (outage w).
    + split; [apply sublist_nil_l | intros r Hr; inversion Hr].
    + split; [apply sublist_filter|].
      intros r Hr. apply list_elem_of_filter in Hr as [Hr _].
      unfold uuid_in in Hr. destruct (uuid r) as [x|]; [|discriminate Hr].
      exists x. split; [reflexivity|]. now apply bool_decide_eq_true in Hr.
Qed.

Lemma getUsersByUuids_depends_on_the_set_witness :
  fst (getUsersByUuids demo (Some ["u2"; "u1"; "u2"]) (up [alice; bob])) =
  fst (getUsersByUuids demo (Some ["u1"; "u2"]) (up [alice; bob])) /\
  exists rows,
    fst (getUsersByUuids demo (Some ["u2"; "u1"; "u2"]) (up [alice; bob])) =
      Return (Some rows) /\
    rows `sublist_of` users (up [alice; bob]) /\
    (forall r, r ∈ rows -> exists x, uuid r = Some x /\ x ∈ ["u2"; "u1"; "u2"]).
Proof.
  apply (getUsersByUuids_depends_on_the_set_only demo (up [alice; bob])
           ["u2"; "u1"; "u2"] ["u1"; "u2"]).
  - discriminate.
  - discriminate.
  - intros x. rewrite !list_elem_of_In. simpl. tauto.
Defined.

(** *** Pages *)

Lemma getUsers_rows (B : Backend) (w : World) (page limit : Z) :
  (1 <= page)%Z -> (1 <= limit)%Z -> (page * limit <= 9007199254740992)%Z ->
  outage w = None ->
  fst (getUsers B (Some page) (Some limit) w) =
  Return (Some (slice ((page - 1) * limit) ((page - 1) * limit + limit - 1)
                      (sort_by (row_le B "created_at" false) (users w)))).
Proof.
  intros Hp Hl Hpl Ho.
  destruct (JsFacts.page_bounds_exact page limit Hp Hl Hpl) as [Hlo Hhi].
  unfold getUsers.
  change (default 1%Z (Some page)) with page.
  change (default 50%Z (Some limit)) with limit.
  cbv zeta. rewrite Hlo, Hhi. run.
  rewrite (await_read B _ "*" w Ho); [|reflexivity|reflexivity|reflexivity].
  cbn [error ok data fst]. unfold fetch. cbn [windowed ordered window ordering
    from select order range with_verb verb].
  rewrite (filter_all _ (users w)) by (intros u; reflexivity).
  reflexivity.
Qed.

Lemma slice_page (p l : Z) (rows : list User) :
  (1 <= p)%Z -> (1 <= l)%Z ->
  slice ((p - 1) * l) ((p - 1) * l + l - 1) rows =
  take (Z.to_nat l) (drop (Z.to_nat (p - 1) * Z.to_nat l) rows).
Proof.
  intros Hp Hl. unfold slice. f_equal.
  - f_equal. lia.
  - f_equal. rewrite <- Z2Nat.inj_mul by lia. reflexivity.
Qed.

(** X11. Pages tile the ordered table.  For whole [k >= 1] and
    [limit >= 1] with [2 * k * limit <= 2^53] (no bound is rounded), with
    the store reachable and no two rows sharing a [created_at] (so that
    the order asked for leaves no ties), pages [2k-1] and [2k] of size
    [limit] put one after the other are page [k] of size [2*limit]: no
    row between them is skipped and none is handed out twice; and no
    page holds more than [limit] rows. *)
Theorem getUsers_half_pages_make_the_page (B : Backend) (w : World) (k limit : Z) :
  (1 <= k)%Z -> (1 <= limit)%Z -> (2 * k * limit <= 9007199254740992)%Z ->
  outage w = None ->
  NoDup (map created_at (users w)) ->
  exists first second,
    fst (getUsers B (Some (2 * k - 1)%Z) (Some limit) w) = Return (Some first) /\
    fst (getUsers B (Some (2 * k)%Z) (Some limit) w) = Return (Some second) /\
    fst (getUsers B (Some k) (Some (2 * limit)%Z) w) = Return (Some (first ++ second)) /\
    length first <= Z.to_nat limit /\
    length second <= Z.to_nat limit.
Proof.
  intros Hk Hl Hbound Ho _.
  rewrite !getUsers_rows by (try exact Ho; nia).
  rewrite !slice_page by lia.
  set (rows := sort_by (row_le B "created_at" false) (users w)).
  set (n := Z.to_nat limit).
  eexists _, _. split; [reflexivity|]. split; [reflexivity|].
  split; [|split; rewrite length_take; lia].
  do 2 f_equal.
  replace (Z.to_nat (2 * k - 1) * n) with (Z.to_nat (2 * k - 1 - 1) * n + n) by (subst n; nia).
  rewrite <- drop_drop, take_take_drop.
  f_equal; [subst n; lia|]. f_equal. subst n. nia.
Qed.

Lemma getUsers_half_pages_witness :
  exists first second,
    fst (getUsers demo (Some 1%Z) (Some 1%Z) (up [alice; bob; carol])) = Return (Some first) /\
    fst (getUsers demo (Some 2%Z) (Some 1%Z) (up [alice; bob; carol])) = Return (Some second) /\
    fst (getUsers demo (Some 1%Z) (Some 2%Z) (up [alice; bob; carol])) =
      Return (Some (first ++ second)) /\
    length first <= 1 /\ length second <= 1.
Proof.
  apply (getUsers_half_pages_make_the_page demo (up [alice; bob; carol]) 1 1);
    [lia | lia | lia | reflexivity |].
  apply (bool_decide_unpack _). vm_compute. exact I.
Defined.

End UserExtras.

(* --------------------------------------------------------------------- *)
(** ** The generate route and its client                                  *)
(* --------------------------------------------------------------------- *)

Module GenerateProofs.
Import Generate.

Lemma or_else_nonempty (s : option string) (fallback : string) :
  fallback <> "" -> or_else s fallback <> "".
Proof. intros H. destruct s as [[|c rest]|]; simpl; [exact H | discriminate | exact H]. Qed.

(** A text that is there and not empty wins over the fallback. *)
Lemma or_else_idem (s : option string) (f g : string) :
  f <> "" -> or_else (Some (or_else s f)) g = or_else s f.
Proof.
  intros Hf. destruct s as [[|c rest]|]; simpl; try reflexivity;
    destruct f; [contradiction | reflexivity | contradiction | reflexivity].
Qed.

(** X20. The client call returns [result.data] and shows nothing exactly
    when the parsed body carries code 1000.  In every other case it
    returns [undefined], logs one error and shows one toast, never an
    empty one: for a body with another code (or none) the toast is the
    body's [message], or "Generation failed" when that is missing or
    empty; the text "An error occurred" is kept for errors raised on the
    way that bring no message of their own. *)
Theorem generateOrToast_returns_data_or_shows_one_toast
    {A : Type} (reply : Reply A) (ui : Ui) :
  (exists result,
     reply = Parsed result /\ code result = Some 1000%Z /\
     generateOrToast reply ui = (data result, ui)) \/
  (fst (generateOrToast reply ui) = None /\
   (forall result, reply = Parsed result -> code result <> Some 1000%Z) /\
   length (console (snd (generateOrToast reply ui))) = S (length (console ui)) /\
   exists t,
     t <> "" /\
     toasts (snd (generateOrToast reply ui)) = toasts ui ++ [t] /\
     (forall result, reply = Parsed result -> t = or_else (message result) "Generation failed") /\
     (forall e, reply = Raises e -> t = or_else (error_message e) "An error occurred")).
Proof.
  unfold generateOrToast, attempt.
  destruct reply as [e|result].
  - right. cbn. split; [reflexivity|]. split; [discriminate|].
    split; [rewrite length_app; simpl; lia|].
    eexists. split; [|split; [reflexivity|split]].
    + now apply or_else_nonempty.
    + discriminate.
    + now intros e' [= <-].
  - destruct (bool_decide (code result = Some 1000%Z)) eqn:Hc.
    + left. apply bool_decide_eq_true in Hc. now exists result.
    + right. apply bool_decide_eq_false in Hc. cbn [fst snd toasts console error_message].
      split; [reflexivity|]. split; [now intros r [= <-]|].
      split; [rewrite length_app; simpl; lia|].
      exists (or_else (message result) "Generation failed").
      split; [now apply or_else_nonempty|]. split.
      * rewrite or_else_idem by discriminate. reflexivity.
      * split; [now intros r [= <-] | discriminate].
Qed.

(** X21. The route calls the provider only for a session whose [user]
    is truthy.  For no session, or a [user] that is [undefined], [null],
    [false], [0], [NaN] or the empty text, it answers 401 with
    [{ error: "Unauthorized" }] and reads neither the request body nor
    the provider; the client call, which looks at [code] and [message],
    then shows "Generation failed" and returns [undefined].  With a
    truthy user, a readable body and an answering provider, the provider
    is called once, with the fixed model and the body's prompt, size and
    quality, and the client call returns the provider's answer and shows
    nothing. *)
Theorem route_guards_the_provider
    {A : Type} (session : option Session) (parsed : option GenerateRequest)
    (provider : ProviderCall -> option A) (ui : Ui) :
  (truthy (session_user session) = false ->
   POST session parsed provider =
     (Responded {| status := 401;
                   body := {| error := Some "Unauthorized"; code := None; message := None;
                              data := None |} |}, []) /\
   through_route session parsed provider ui =
     Some (None,
           {| console := console ui ++ [{| error_message := Some "Generation failed" |}];
              toasts := toasts ui ++ ["Generation failed"] |})) /\
  (forall req answer,
     truthy (session_user session) = true -> parsed = Some req ->
     let call := {| path := "/v1/images/generations"; model := "nano-banana-2-lite";
                    call_prompt := prompt req; call_size := size req;
                    call_quality := quality req |} in
     provider call = Some answer ->
     snd (POST session parsed provider) = [call] /\
     through_route session parsed provider ui = Some (Some answer, ui)) /\
  (snd (POST session parsed provider) <> [] -> truthy (session_user session) = true) /\
  (truthy (session_user session) = false <->
   session = None \/
   exists s, session = Some s /\
     (user s = Undefined \/ user s = Null \/ user s = Boolean false \/
      user s = Number 0 \/ user s = NotANumber \/ user s = Text "")).
Proof.
  split; [|split; [|split]].
  - intros Hnone. unfold through_route, POST. rewrite Hnone. split; reflexivity.
  - intros req answer Hwho -> call Hanswer.
    unfold through_route, POST. rewrite Hwho. cbn [negb]. fold call. rewrite Hanswer.
    split; reflexivity.
  - unfold POST. destruct (truthy (session_user session)); [reflexivity | intros H; now elim H].
  - split.
    + destruct session as [[who]|]; [|now left]. intros H. right. eexists. split; [reflexivity|].
      cbn [user]. destruct who as [| |[|]|n| |t|]; cbn in H; try discriminate H; auto 7.
      * apply negb_false_iff, Z.eqb_eq in H. subst. auto 7.
      * destruct t; [auto 7 | discriminate H].
    + intros [->|(s0 & -> & H)]; [reflexivity|].
      cbn [session_user].
      destruct H as [->|[->|[->|[->|[->| ->]]]]]; reflexivity.
Qed.

Lemma route_guards_the_provider_witness :
  through_route (Some {| user := Text "" |})
    (Some {| prompt := Some "a cat"; size := None; quality := None |})
    (fun _ => Some "task-1") quiet =
    Some (None, {| console := [{| error_message := Some "Generation failed" |}];
                   toasts := ["Generation failed"] |}) /\
  snd (POST (Some {| user := Text "" |})
         (Some {| prompt := Some "a cat"; size := None; quality := None |})
         (fun _ => Some "task-1")) = [] /\
  through_route (Some {| user := Object |})
    (Some {| prompt := Some "a cat"; size := None; quality := None |})
    (fun _ => Some "task-1") quiet = Some (Some "task-1", quiet).
Proof.
  destruct (route_guards_the_provider (Some {| user := Text "" |})
              (Some {| prompt := Some "a cat"; size := None; quality := None |})
              (fun _ => Some "task-1") quiet) as (Hout & _).
  destruct (route_guards_the_provider (Some {| user := Object |})
              (Some {| prompt := Some "a cat"; size := None; quality := None |})
              (fun _ => Some "task-1") quiet) as (_ & Hin & _).
  destruct (Hout eq_refl) as [Hpost Hclient].
  split; [exact Hclient|]. split; [now rewrite Hpost|].
  apply (Hin {| prompt := Some "a cat"; size := None; quality := None |} "task-1");
    reflexivity.
Defined.

End GenerateProofs.
